(** * applemusicscrobbler: the scrobbling state machine of [scrobbler.py]

    A shallow embedding of the [Scrobbler] class: the notification handler,
    the now-playing update, the scheduling of the scrobble timer, its
    cancellation and the timer-fire handler, together with the small part of
    Python and Foundation they rely on (integer formatting, [int()], the
    validity of a non-repeating [NSTimer]).

    Numbers.  Python's [int] is [Z].  A finite float is modelled by the
    rational it denotes, in [Q]: the comparisons the code makes on floats
    ([== 0], [< 30]) and [ceil] and [int] are then the mathematical ones.
    The subtraction of line 181 rounds as binary64 does ([double_sub]).  A
    track length is kept exact: the quotient of line 102 and its half give
    the same tests and the same timeout as the exact ones, except for the
    half of a length below 2^-1021, which is not a float, and which the
    statement of the rule for a length from the fallback leaves out.

    Collaborators.  The handlers are modelled from the dictionary of line 62
    on, for a notification that has one.  The calls to the tracking service
    are recorded as effects, and what follows a call is what the handler
    does once the call has returned. *)

From Stdlib Require Import ZArith QArith Qround Qabs Ascii String List Lia.
From Stdlib Require Import Floats.SpecFloat.
From stdpp Require Import base option list gmap sets strings.

Local Open Scope Z_scope.

(** ** Python and Foundation primitives *)

(** [int.from_bytes(bs, byteorder="big")] *)
Definition int_from_bytes_big (bs : list ascii) : Z :=
  fold_left (fun acc b => acc * 256 + Z.of_N (N_of_ascii b)) bs 0.

(** [int(x)] on a number: truncation towards zero. *)
Definition int_of_Q (x : Q) : Z :=
  if Qle_bool 0 x then Qfloor x else Qceiling x.

(** ** Binary64 rounding

    The value of [x - y] on two finite floats: the exact difference rounded
    to the nearest float, ties to the even significand.  A float of the
    binade of 2^e is a multiple of 2^(e - 52), or of 2^-1074 below the
    normal range.  (The exponent is not bounded above: the difference of a
    clock in seconds and a position in a track is far from 2^1024.) *)

(** 2^k, for any integer k. *)
Definition Qpow2 (k : Z) : Q :=
  if 0 <=? k then inject_Z (2 ^ k) else 1 # Z.to_pos (2 ^ (- k)).

(** The e with 2^e <= |x| < 2^(e + 1), for x other than 0. *)
Definition binade (x : Q) : Z :=
  let k := Z.log2 (Z.abs (Qnum x)) - Z.log2 (Zpos (Qden x)) in
  if Qle_bool (Qpow2 k) (Qabs x) then k else k - 1.

(** The nearest integer, the even one of two that are equally near. *)
Definition round_half_even (y : Q) : Z :=
  let f := Qfloor y in
  match (y - inject_Z f ?= 1 # 2)%Q with
  | Lt => f
  | Gt => f + 1
  | Eq => if Z.even f then f else f + 1
  end.

(** The float nearest to a positive x. *)
Definition round_magnitude (x : Q) : Q :=
  let q := Z.max (binade x - 52) (-1074) in
  (inject_Z (round_half_even (x / Qpow2 q)) * Qpow2 q)%Q.

Definition round_double (x : Q) : Q :=
  match (x ?= 0)%Q with
  | Eq => 0%Q
  | Gt => round_magnitude x
  | Lt => (- round_magnitude (- x))%Q
  end.

(** [x - y] on floats *)
Definition double_sub (x y : Q) : Q := round_double (x - y).

(** The same subtraction by the binary64 specification of the standard
    library, on floats given by an integer significand and an exponent;
    [None] when the result is not finite. *)
Definition binary64 (m e : Z) : spec_float :=
  match m with
  | Z0 => S754_zero false
  | Zpos p => S754_finite false p e
  | Zneg p => S754_finite true p e
  end.

Definition Q_of_binary64 (f : spec_float) : option Q :=
  match f with
  | S754_zero _ => Some 0%Q
  | S754_finite s m e =>
      Some ((if s then - inject_Z (Zpos m) else inject_Z (Zpos m)) * Qpow2 e)%Q
  | _ => None
  end.

Definition agrees_with_binary64 (x y : Z * Z) : bool :=
  match Q_of_binary64 (SFsub 53 1024 (binary64 x.1 x.2) (binary64 y.1 y.2)) with
  | Some difference =>
      Qeq_bool difference
        (double_sub (inject_Z x.1 * Qpow2 x.2) (inject_Z y.1 * Qpow2 y.2))
  | None => false
  end.

(** The digit characters of the [X] presentation type. *)
Definition hex_digit (d : Z) : ascii :=
  nth (Z.to_nat d) (list_ascii_of_string "0123456789ABCDEF") "0"%char.

(** The value of one character as an upper-case hexadecimal digit. *)
Definition hex_digit_value (c : ascii) : option Z :=
  let n := Z.of_N (N_of_ascii c) in
  if (48 <=? n) && (n <=? 57) then Some (n - 48)
  else if (65 <=? n) && (n <=? 70) then Some (n - 55)
  else None.

Definition is_upper_hex (c : ascii) : bool :=
  match hex_digit_value c with Some _ => true | None => false end.

(** Most significant digit first; [fuel] bounds the number of digits. *)
Fixpoint hex_digits_aux (fuel : nat) (n : Z) (acc : list ascii) : list ascii :=
  match fuel with
  | O => acc
  | S fuel' =>
      let acc' := hex_digit (n mod 16) :: acc in
      if n / 16 =? 0 then acc' else hex_digits_aux fuel' (n / 16) acc'
  end.

(** The digits of a natural number [n]: one digit for [0], no leading zero
    otherwise. *)
Definition hex_digits (n : Z) : list ascii :=
  hex_digits_aux (S (Z.to_nat (Z.log2 n))) n [].

(** [s.rjust(width, "0")] on a list of digits. *)
Definition zero_fill (width : nat) (ds : list ascii) : list ascii :=
  repeat "0"%char (width - length ds)%nat ++ ds.

(** ["{:016X}".format(n)]: upper-case hexadecimal, zero padded to a total
    width of 16, the sign (if any) before the padding. *)
Definition format_016X (n : Z) : string :=
  if n <? 0
  then String "-"%char (string_of_list_ascii (zero_fill 15 (hex_digits (- n))))
  else string_of_list_ascii (zero_fill 16 (hex_digits n)).

(** Reading a string of hexadecimal digits back (used to state what
    [format_016X] denotes). *)
Definition hex_value (ds : list ascii) : Z :=
  fold_left (fun acc c => acc * 16 + default 0 (hex_digit_value c)) ds 0.

Definition ITUNES_PLAYER_STATE_STOPPED : Z :=
  int_from_bytes_big (list_ascii_of_string "kPSS").
Definition ITUNES_PLAYER_STATE_PLAYING : Z :=
  int_from_bytes_big (list_ascii_of_string "kPSP").

(** Track must be at least this long to be scrobbled *)
Definition SCROBBLER_MIN_TRACK_LENGTH : Z := 30.
(** Scrobble after track halfway point or this many seconds since starting,
    whichever is first. *)
Definition SCROBBLER_HALFWAY_THRESHOLD : Z := 240.

(** ** Data *)

(** The [userInfo] dictionary of a [com.apple.iTunes.playerInfo]
    notification.  The program only ever reads the eight keys below, with
    [dict.get]: a key that is missing reads as [None].  The values are typed
    by their producer: strings for the textual keys, integers for
    ["Track Number"], ["Total Time"] (milliseconds) and ["PersistentID"] (a
    64-bit quantity that arrives as a signed integer). *)
Module UserInfo.
Record t : Type := mk {
  Player_State : option string;
  Artist : option string;
  Album_Artist : option string;
  Name : option string;
  Album : option string;
  Track_Number : option Z;
  Total_Time : option Z;
  PersistentID : option Z
}.
End UserInfo.

(** What [itunes.currentTrack()] answers: its accessors, [None] for a
    missing value. *)
Module Track.
Record t : Type := mk {
  persistentID : option string;
  artist : option string;
  name : option string;
  album : option string;
  albumArtist : option string;
  trackNumber : option Z;
  duration : option Q
}.
End Track.

(** The answers of the player and of the clock while one handler runs; the
    position and the clock are finite floats. *)
Record Env : Type := {
  playerState : Z;
  currentTrack : Track.t;
  playerPosition : Q;
  time_time : Q
}.

(** The keyword arguments of the two calls to the tracking service;
    [timestamp] is [None] as long as the key is not set. *)
Record Kwargs : Type := {
  artist : option string;
  album_artist : option string;
  title : option string;
  album : option string;
  track_number : option Z;
  duration : option Z;
  timestamp : option Z
}.

(** An [NSTimer]: its identity, its interval in seconds and its payload. *)
Record Timer : Type := {
  timer_id : nat;
  timeInterval : Z;
  userInfo : UserInfo.t
}.

Inductive Level : Type := DEBUG | INFO | WARNING.

(** What a handler does to the outside, in program order. *)
Inductive Effect : Type :=
| Log (level : Level) (message : string)
| Sleep (seconds : Z)
| UpdateNowPlaying (kwargs : Kwargs)
| Scrobble (kwargs : Kwargs)
| TimerScheduled (timer : Timer)
| TimerInvalidated (id : nat)
| TimerFired (id : nat)
| Uncaught (what : string).

(** The mutable state: the [scrobble_timer] attribute of the [Scrobbler]
    object, and the run loop's timers: those that are valid (scheduled,
    neither fired nor invalidated) and the identity of the next one. *)
Record World : Type := {
  scrobble_timer : option Timer;
  valid_timers : gmap nat Timer;
  next_timer : nat
}.

Definition initial : World :=
  {| scrobble_timer := None; valid_timers := ∅; next_timer := 0 |}.

(** ** The monad of the handlers: state, exceptions and an effect log *)

Inductive result (A : Type) : Type :=
| Ok (a : A)
| TypeError (message : string).
Arguments Ok {A} a.
Arguments TypeError {A} message.

Definition M (A : Type) : Type := World -> result A * World * list Effect.

Definition ret {A} (a : A) : M A := fun w => (Ok a, w, []).

Definition bind {A B} (m : M A) (k : A -> M B) : M B := fun w =>
  match m w with
  | (Ok a, w1, out1) =>
      match k a w1 with (r, w2, out2) => (r, w2, out1 ++ out2) end
  | (TypeError e, w1, out1) => (TypeError e, w1, out1)
  end.

#[global] Instance M_ret : MRet M := @ret.
#[global] Instance M_bind : MBind M := fun A B k m => bind m k.

Definition raise {A} (e : string) : M A := fun w => (TypeError e, w, []).
Definition emit (e : Effect) : M unit := fun w => (Ok tt, w, [e]).
Definition log (level : Level) (message : string) : M unit :=
  emit (Log level message).

Definition outcome {A} (x : result A * World * list Effect) : result A := x.1.1.
Definition world_of {A} (x : result A * World * list Effect) : World := x.1.2.
Definition effects_of {A} (x : result A * World * list Effect) : list Effect := x.2.

(** Reading and writing [self.scrobble_timer] *)
Definition get_scrobble_timer : M (option Timer) := fun w =>
  (Ok (scrobble_timer w), w, []).
Definition set_scrobble_timer (t : option Timer) : M unit := fun w =>
  (Ok tt,
   {| scrobble_timer := t;
      valid_timers := valid_timers w;
      next_timer := next_timer w |}, []).

(** [timer.isValid()] *)
Definition isValid (timer : Timer) : M bool := fun w =>
  (Ok (bool_decide (is_Some (valid_timers w !! timer_id timer))), w, []).

(** [timer.invalidate()]: the timer will not fire any more; on a timer that
    is not valid this changes nothing. *)
Definition invalidate (timer : Timer) : M unit := fun w =>
  (Ok tt,
   {| scrobble_timer := scrobble_timer w;
      valid_timers := delete (timer_id timer) (valid_timers w);
      next_timer := next_timer w |},
   [TimerInvalidated (timer_id timer)]).

(** [NSTimer.scheduledTimerWithTimeInterval_target_selector_userInfo_repeats_]
    with the fire handler as selector and [repeats = False]: a new, valid
    timer. *)
Definition scheduledTimer (interval : Z) (userinfo : UserInfo.t) : M Timer :=
  fun w =>
    let t := {| timer_id := next_timer w;
                timeInterval := interval;
                userInfo := userinfo |} in
    (Ok t,
     {| scrobble_timer := scrobble_timer w;
        valid_timers := <[next_timer w := t]> (valid_timers w);
        next_timer := S (next_timer w) |},
     [TimerScheduled t]).

(** ** Python values *)

(** Truth value of a string that may be [None]: [None] and [""] are false. *)
Definition truthy (s : option string) : bool :=
  match s with
  | Some s => negb (String.eqb s "")
  | None => false
  end.

(** [n or None] on an integer. *)
Definition or_None (n : Z) : option Z := if n =? 0 then None else Some n.

Definition Qlt_bool (x y : Q) : bool := negb (Qle_bool y x).

(** ** The methods of [Scrobbler] *)

(** [cancel_scrobble_timer] *)
Definition cancel_scrobble_timer : M unit :=
  log DEBUG "cancel_scrobble_timer" ;;
  held ← get_scrobble_timer;
  match held with
  | Some timer =>
      log DEBUG "Invalidating timer..." ;;
      invalidate timer ;;
      set_scrobble_timer None
  | None => log DEBUG "No timer to invalidate"
  end.

(** [update_now_playing]; the call of line 90 is the effect
    [UpdateNowPlaying], and the handler goes on as it does when the call
    returns. *)
Definition update_now_playing (userinfo : UserInfo.t) : M bool :=
  let kwargs :=
    {| artist := UserInfo.Artist userinfo;
       album_artist := UserInfo.Album_Artist userinfo;
       title := UserInfo.Name userinfo;
       album := UserInfo.Album userinfo;
       track_number := UserInfo.Track_Number userinfo;
       duration := or_None (default 0 (UserInfo.Total_Time userinfo) / 1000);
       timestamp := None |} in
  if negb (truthy (artist kwargs)) || negb (truthy (title kwargs)) then
    log DEBUG "Artist or title are missing, so ignoring..." ;;
    ret false
  else
    log DEBUG "Updating now playing with kwargs:\n{}" ;;
    emit (UpdateNowPlaying kwargs) ;;
    ret true.

(** The end of [prepare_to_scrobble], from the computation of [timeout] on. *)
Definition set_up_timer (track_length : Q) (userinfo : UserInfo.t) : M unit :=
  let timeout :=
    Z.min (Qceiling (track_length / 2)) SCROBBLER_HALFWAY_THRESHOLD in
  log DEBUG "Setting up a timer for {} seconds" ;;
  timer ← scheduledTimer timeout userinfo;
  set_scrobble_timer (Some timer).

(** [prepare_to_scrobble]; each [return] of the source ends its branch. *)
Definition prepare_to_scrobble (userinfo : UserInfo.t) (env : Env) : M unit :=
  log DEBUG "prepare_to_scrobble" ;;
  cancel_scrobble_timer ;;
  match UserInfo.PersistentID userinfo with
  | None =>
      log WARNING
        "Track being played doesn't have a PersistentID, so can't prepare to scrobble it!"
  | Some _ =>
      let track_length : Q :=
        (inject_Z (default 0%Z (UserInfo.Total_Time userinfo)) / 1000)%Q in
      if Qeq_bool track_length 0 then
        log DEBUG
          "Track has zero length, trying to get it from itunes.currentTrack after 5 seconds" ;;
        emit (Sleep 5) ;;
        let track_length := Track.duration (currentTrack env) in
        log DEBUG "currentTrack().duration(): {}" ;;
        match track_length with
        | None => log DEBUG "Still zero-length, giving up!"
        | Some track_length =>
            if Qeq_bool track_length 0
            then log DEBUG "Still zero-length, giving up!"
            else set_up_timer track_length userinfo
        end
      else if Qlt_bool track_length (inject_Z SCROBBLER_MIN_TRACK_LENGTH) then
        log DEBUG "Track is too short ({}), so not going to scrobble it"
      else set_up_timer track_length userinfo
  end.

(** Lines 145 to 147 of the fire handler: PyObjC hands the identifier over as
    a signed long, the handler reads it as unsigned. *)
Definition unsigned_persistent_id (snapshot_id : Z) : Z :=
  if snapshot_id <? 0 then snapshot_id + 2 ^ 64 else snapshot_id.

(** Line 148: the identifier the fire handler expects, as the player prints
    it. *)
Definition expected_persistent_id (snapshot_id : Z) : string :=
  format_016X (unsigned_persistent_id snapshot_id).

(** [scrobbleTimerFired_]; the call of line 183 is the effect [Scrobble]. *)
Definition scrobbleTimerFired_ (timer : Timer) (env : Env) : M unit :=
  log DEBUG "scrobbleTimerFired_" ;;
  valid ← isValid timer;
  if negb valid then
    log WARNING "Received a fire event from an invalid timer, not scrobbling"
  else if negb (playerState env =? ITUNES_PLAYER_STATE_PLAYING) then
    log DEBUG "iTunes isn't playing, not scrobbling"
  else
    let userinfo := userInfo timer in
    match UserInfo.PersistentID userinfo with
    | None =>
        raise "'<' not supported between instances of 'NoneType' and 'int'"
    | Some snapshot_id =>
        let expected := expected_persistent_id snapshot_id in
        log DEBUG "Expected persistent ID of track to be scrobbled: {}" ;;
        let current_track := currentTrack env in
        let actual_persistent_id := Track.persistentID current_track in
        (* [None]: the handler returns; [Some b]: b is scrobble_from_current_track *)
        proceed ←
          match actual_persistent_id with
          | Some actual =>
              if negb (String.eqb actual expected) then
                log WARNING
                  "Track now playing is different to the one that prompted timer, not scrobbling: {} (expected) vs {} (actual)" ;;
                ret None
              else
                log DEBUG "Correct track is playing, going to scrobble it" ;;
                ret (Some true)
          | None =>
              log WARNING
                "Track playing has no persistent ID, assuming it's an Apple Music stream and scrobbling based on metadata from original notification" ;;
              ret (Some false)
          end;
        match proceed with
        | None => ret tt
        | Some scrobble_from_current_track =>
            kwargs ←
              (if scrobble_from_current_track : bool then
                 match Track.duration current_track with
                 | None =>
                     raise "int() argument must be a string, a bytes-like object or a real number, not 'NoneType'"
                 | Some seconds =>
                     ret {| artist := Track.artist current_track;
                            title := Track.name current_track;
                            album := Track.album current_track;
                            album_artist := Track.albumArtist current_track;
                            track_number := Track.trackNumber current_track;
                            duration := Some (int_of_Q seconds);
                            timestamp := None |}
                 end
               else
                 ret {| artist := UserInfo.Artist userinfo;
                        title := UserInfo.Name userinfo;
                        album := UserInfo.Album userinfo;
                        album_artist := UserInfo.Album_Artist userinfo;
                        track_number := UserInfo.Track_Number userinfo;
                        duration :=
                          or_None (default 0 (UserInfo.Total_Time userinfo) / 1000);
                        timestamp := None |});
            let kwargs :=
              {| artist := artist kwargs;
                 title := title kwargs;
                 album := album kwargs;
                 album_artist := album_artist kwargs;
                 track_number := track_number kwargs;
                 duration := duration kwargs;
                 timestamp :=
                   Some (int_of_Q (double_sub (time_time env)
                                              (playerPosition env))) |} in
            log DEBUG "Going to scrobble with kwargs:\n{}" ;;
            emit (Scrobble kwargs) ;;
            log DEBUG "done."
        end
    end.

(** [receivedNotification_], from line 64 on: [userinfo] is the dictionary
    that line 62 makes of the notification's [userInfo()]. *)
Definition receivedNotification_ (userinfo : UserInfo.t) (env : Env) : M unit :=
  log DEBUG "Got a notification: {}" ;;
  let state := UserInfo.Player_State userinfo in
  if bool_decide (state = Some "Playing"%string) then
    should_scrobble ← update_now_playing userinfo;
    if should_scrobble : bool then prepare_to_scrobble userinfo env
    else log DEBUG "update_now_playing returned False, so not going to scrobble."
  else if bool_decide (state = Some "Paused"%string)
          || bool_decide (state = Some "Stopped"%string) then
    cancel_scrobble_timer
  else log INFO "Unrecognised player state: {}".

(** ** The run loop

    One loop delivers the notifications and the timer fires, one at a time.
    A timer fires only while it is valid; as it does not repeat, the loop
    invalidates it when its handler has returned.  An exception that leaves a
    handler is reported and the loop goes on. *)

Inductive Event : Type :=
| Notification (userinfo : UserInfo.t) (env : Env)
| TimerFire (id : nat) (env : Env).

Definition run_handler (handler : M unit) : M unit := fun w =>
  match handler w with
  | (Ok _, w1, out) => (Ok tt, w1, out)
  | (TypeError e, w1, out) => (Ok tt, w1, out ++ [Uncaught e])
  end.

Definition timer_fired (timer : Timer) : M unit := fun w =>
  (Ok tt,
   {| scrobble_timer := scrobble_timer w;
      valid_timers := delete (timer_id timer) (valid_timers w);
      next_timer := next_timer w |},
   [TimerFired (timer_id timer)]).

Definition deliver (ev : Event) : M unit :=
  match ev with
  | Notification userinfo env => run_handler (receivedNotification_ userinfo env)
  | TimerFire id env => fun w =>
      match valid_timers w !! id with
      | Some timer =>
          (run_handler (scrobbleTimerFired_ timer env) ;; timer_fired timer) w
      | None => (Ok tt, w, [])
      end
  end.

(** The state and the effects, oldest first, after a sequence of events. *)
Fixpoint run (events : list Event) (w : World) : World * list Effect :=
  match events with
  | [] => (w, [])
  | ev :: events' =>
      let r := deliver ev w in
      let r' := run events' (world_of r) in
      (r'.1, effects_of r ++ r'.2)
  end.

(** ** Observations on the effects of a run *)

Definition is_log (e : Effect) : bool :=
  match e with Log _ _ => true | _ => false end.

(** The submissions to [lastfm.scrobble], oldest first. *)
Definition scrobbles (effects : list Effect) : list Kwargs :=
  omap (fun e => match e with Scrobble kwargs => Some kwargs | _ => None end)
       effects.

(** The calls of [lastfm.update_now_playing], oldest first. *)
Definition now_playing_updates (effects : list Effect) : list Kwargs :=
  omap (fun e => match e with UpdateNowPlaying kwargs => Some kwargs | _ => None end)
       effects.

(** The timers created, oldest first. *)
Definition scheduled (effects : list Effect) : list Timer :=
  omap (fun e => match e with TimerScheduled timer => Some timer | _ => None end)
       effects.

(** The identities of the timers that are live (scheduled, not fired, not
    invalidated) after one more effect, and after a list of effects. *)
Definition live_step (live : gset nat) (e : Effect) : gset nat :=
  match e with
  | TimerScheduled timer => {[timer_id timer]} ∪ live
  | TimerInvalidated id | TimerFired id => live ∖ {[id]}
  | _ => live
  end.

Definition live_after (live : gset nat) (effects : list Effect) : gset nat :=
  fold_left live_step effects live.

(** The only timer that may be valid is the one [scrobble_timer] refers
    to. *)
Definition at_most_held (w : World) : Prop :=
  forall id timer,
    valid_timers w !! id = Some timer ->
    scrobble_timer w = Some timer /\ timer_id timer = id.

(** Starting with the timers [live], at no moment of [effects] are two timers
    live, and a timer is only ever scheduled when none is. *)
Fixpoint disciplined (live : gset nat) (effects : list Effect) : Prop :=
  match effects with
  | [] => True
  | e :: rest =>
      (forall timer, e = TimerScheduled timer -> live = ∅)
      /\ (size (live_step live e) <= 1)%nat
      /\ disciplined (live_step live e) rest
  end.

(** What [cancel_scrobble_timer] leaves behind. *)
Definition cancelled (w : World) : World :=
  match scrobble_timer w with
  | Some timer =>
      {| scrobble_timer := None;
         valid_timers := delete (timer_id timer) (valid_timers w);
         next_timer := next_timer w |}
  | None => w
  end.

(** The delays, in seconds, of the timers created: none when scheduling is
    abandoned. *)
Definition delays (effects : list Effect) : list Z :=
  map timeInterval (scheduled effects).

(** ** A concrete scenario

    A forty second track whose identifier arrives as [-1], the timer set up
    for it, and the player's answers when that timer fires. *)

Definition example_userinfo : UserInfo.t :=
  {| UserInfo.Player_State := Some "Playing"%string;
     UserInfo.Artist := Some "Snapshot Artist"%string;
     UserInfo.Album_Artist := None;
     UserInfo.Name := Some "Snapshot Title"%string;
     UserInfo.Album := Some "Snapshot Album"%string;
     UserInfo.Track_Number := Some 3;
     UserInfo.Total_Time := Some 40000;
     UserInfo.PersistentID := Some (-1) |}.

Definition example_timer : Timer :=
  {| timer_id := 0; timeInterval := 20; userInfo := example_userinfo |}.

(** The state while [example_timer] is outstanding. *)
Definition example_world : World :=
  {| scrobble_timer := Some example_timer;
     valid_timers := {[ 0%nat := example_timer ]};
     next_timer := 1 |}.

Definition example_track (id : option string) (seconds : option Q) : Track.t :=
  {| Track.persistentID := id;
     Track.artist := Some "Live Artist"%string;
     Track.name := Some "Live Title"%string;
     Track.album := Some "Live Album"%string;
     Track.albumArtist := Some "Live Album Artist"%string;
     Track.trackNumber := Some 7;
     Track.duration := seconds |}.

(** The player is playing, 2.5 seconds into the track, at time 1000. *)
Definition example_env (id : option string) (seconds : option Q) : Env :=
  {| playerState := ITUNES_PLAYER_STATE_PLAYING;
     currentTrack := example_track id seconds;
     playerPosition := 5 # 2;
     time_time := 1000 # 1 |}.

(** A stream: the same notification without a ["PersistentID"]. *)
Definition stream_userinfo : UserInfo.t :=
  {| UserInfo.Player_State := Some "Playing"%string;
     UserInfo.Artist := Some "Snapshot Artist"%string;
     UserInfo.Album_Artist := None;
     UserInfo.Name := Some "Snapshot Title"%string;
     UserInfo.Album := Some "Snapshot Album"%string;
     UserInfo.Track_Number := Some 3;
     UserInfo.Total_Time := Some 40000;
     UserInfo.PersistentID := None |}.

(** A notification with the given state and length and an identifier, with
    or without an artist. *)
Definition notification_of (state : string) (artist : option string)
    (total_time : option Z) : UserInfo.t :=
  {| UserInfo.Player_State := Some state;
     UserInfo.Artist := artist;
     UserInfo.Album_Artist := None;
     UserInfo.Name := Some "Other Title"%string;
     UserInfo.Album := None;
     UserInfo.Track_Number := None;
     UserInfo.Total_Time := total_time;
     UserInfo.PersistentID := Some 42 |}.

(** Two tracks started one after the other. *)
Definition example_events : list Event :=
  [ Notification example_userinfo (example_env None None);
    Notification (notification_of "Playing" (Some "Artist"%string) (Some 500000))
      (example_env None None) ].

(** ** Further observations *)

(** The blocking waits, in seconds, oldest first. *)
Definition sleeps (effects : list Effect) : list Z :=
  omap (fun e => match e with Sleep seconds => Some seconds | _ => None end)
       effects.

(** The exceptions that left a handler, oldest first. *)
Definition uncaught (effects : list Effect) : list string :=
  omap (fun e => match e with Uncaught what => Some what | _ => None end)
       effects.

Definition is_timer_effect (e : Effect) : bool :=
  match e with
  | TimerScheduled _ | TimerInvalidated _ | TimerFired _ => true
  | _ => false
  end.

(** The keyword arguments both handlers build from a notification. *)
Definition snapshot_kwargs (userinfo : UserInfo.t) : Kwargs :=
  {| artist := UserInfo.Artist userinfo;
     album_artist := UserInfo.Album_Artist userinfo;
     title := UserInfo.Name userinfo;
     album := UserInfo.Album userinfo;
     track_number := UserInfo.Track_Number userinfo;
     duration := or_None (default 0 (UserInfo.Total_Time userinfo) / 1000);
     timestamp := None |}.

(** Every valid timer carries a notification with a ["PersistentID"]. *)
Definition identified (w : World) : Prop :=
  forall id timer,
    valid_timers w !! id = Some timer ->
    is_Some (UserInfo.PersistentID (userInfo timer)).

(** * Properties *)

Example format_016X_255 : format_016X 255 = "00000000000000FF"%string.
Proof. reflexivity. Qed.
Example format_016X_neg : format_016X (-255) = "-0000000000000FF"%string.
Proof. reflexivity. Qed.
Example format_016X_wide : format_016X (2 ^ 68 + 10) = "10000000000000000A"%string.
Proof. vm_compute. reflexivity. Qed.
Example playing_code : ITUNES_PLAYER_STATE_PLAYING = 1800426320.
Proof. reflexivity. Qed.

(** ** Binary64 rounding *)

Example double_sub_agrees_with_binary64 :
  forallb (fun operands => agrees_with_binary64 operands.1 operands.2)
    [ ((1700000020, 0), (20 * 2 ^ 27 + 1, -27));
      ((1762257620 * 4 + 3, -2), (83 * 2 ^ 25 + 1, -27));
      ((1000, 0), (5, -1));
      ((2 ^ 53, 0), (-1, 0)); ((2 ^ 53 + 2, 0), (-1, 0));
      ((2 ^ 53, 1), (-3, 0)); ((2 ^ 53, 1), (-5, 0));
      ((1, 0), (1, -60)); ((1, 0), (2 ^ 52 + 1, -53));
      ((3, -1074), (1, -1074)); ((2 ^ 53 - 1, -1074), (-1, -1074));
      ((-7, -3), (2 ^ 52 + 12345, -20)); ((5, 0), (5, 0));
      ((- (2 ^ 53 - 1), 100), (2 ^ 53 - 1, 47)) ] = true.
Proof. vm_compute. reflexivity. Qed.

(** The clock at 1700000020 and a position of 20 + 2^-27 seconds: the exact
    difference lies below 1700000000, the floats' difference is
    1700000000. *)
Example double_sub_rounds :
  int_of_Q (double_sub (1700000020 # 1) (20 * 2 ^ 27 + 1 # 2 ^ 27)) = 1700000000
  /\ Qfloor ((1700000020 # 1) - (20 * 2 ^ 27 + 1 # 2 ^ 27)) = 1699999999.
Proof. split; vm_compute; reflexivity. Qed.

Lemma Qpow2_pos (k : Z) : (0 < Qpow2 k)%Q.
Proof.
  unfold Qpow2. destruct (0 <=? k) eqn:Hk; [| reflexivity].
  apply Z.leb_le in Hk. unfold Qlt. simpl.
  pose proof (Z.pow_pos_nonneg 2 k). lia.
Qed.

Lemma round_half_even_nonneg (y : Q) : (0 <= y)%Q -> 0 <= round_half_even y.
Proof.
  intros Hy. unfold round_half_even.
  pose proof (Qfloor_resp_le _ _ Hy) as Hfloor.
  change (Qfloor 0) with 0 in Hfloor.
  destruct (_ ?= _)%Q; [destruct (Z.even _) | |]; lia.
Qed.

Lemma round_double_nonneg (x : Q) : (0 <= x)%Q -> (0 <= round_double x)%Q.
Proof.
  intros Hx. unfold round_double.
  destruct (x ?= 0)%Q eqn:Hsign.
  - apply Qle_refl.
  - apply Qlt_alt in Hsign. by apply Qlt_not_le in Hsign.
  - unfold round_magnitude.
    apply Qmult_le_0_compat; [| apply Qlt_le_weak, Qpow2_pos].
    assert (Hdiv : (0 <= x / Qpow2 (Z.max (binade x - 52) (-1074)))%Q).
    { apply Qle_shift_div_l; [apply Qpow2_pos |]. by rewrite Qmult_0_l. }
    apply round_half_even_nonneg in Hdiv.
    unfold Qle. simpl. lia.
Qed.

(** ** Hexadecimal formatting *)

Section Hex.

Lemma hex_digit_value_hex_digit (d : Z) :
  0 <= d < 16 -> hex_digit_value (hex_digit d) = Some d.
Proof.
  intros Hd.
  assert (Hcases : d = 0 \/ d = 1 \/ d = 2 \/ d = 3 \/ d = 4 \/ d = 5
                   \/ d = 6 \/ d = 7 \/ d = 8 \/ d = 9 \/ d = 10 \/ d = 11
                   \/ d = 12 \/ d = 13 \/ d = 14 \/ d = 15) by lia.
  repeat (destruct Hcases as [-> | Hcases]; [reflexivity |]).
  by subst.
Qed.

Lemma hex_digit_is_upper_hex (n : Z) : is_upper_hex (hex_digit (n mod 16)) = true.
Proof.
  unfold is_upper_hex.
  rewrite hex_digit_value_hex_digit; [done |].
  apply Z.mod_pos_bound; lia.
Qed.

Lemma hex_digits_aux_app (fuel : nat) : forall (n : Z) (acc : list ascii),
  hex_digits_aux fuel n acc = hex_digits_aux fuel n [] ++ acc.
Proof.
  induction fuel as [| fuel IH]; intros n acc; simpl; [done |].
  destruct (n / 16 =? 0); [done |].
  rewrite (IH _ (_ :: acc)), (IH _ [_]).
  by rewrite <- app_assoc.
Qed.

Lemma hex_value_snoc (ds : list ascii) (c : ascii) :
  hex_value (ds ++ [c]) = hex_value ds * 16 + default 0 (hex_digit_value c).
Proof. unfold hex_value. by rewrite fold_left_app. Qed.

(** With enough fuel the digits denote the number. *)
Lemma hex_value_hex_digits_aux (fuel : nat) : forall n : Z,
  0 <= n < 16 ^ Z.of_nat fuel -> hex_value (hex_digits_aux fuel n []) = n.
Proof.
  induction fuel as [| fuel IH]; intros n Hn.
  - simpl in *. unfold hex_value. simpl. lia.
  - rewrite Nat2Z.inj_succ, Z.pow_succ_r in Hn by lia.
    assert (Hmod : 0 <= n mod 16 < 16) by (apply Z.mod_pos_bound; lia).
    pose proof (Z.div_mod n 16 ltac:(lia)) as Hdm.
    simpl. destruct (n / 16 =? 0) eqn:Hq.
    + apply Z.eqb_eq in Hq. unfold hex_value. simpl.
      rewrite hex_digit_value_hex_digit by done. simpl. lia.
    + rewrite hex_digits_aux_app, hex_value_snoc.
      rewrite hex_digit_value_hex_digit by done. simpl.
      rewrite IH; [lia |].
      split; [apply Z.div_pos; lia | apply Z.div_lt_upper_bound; lia].
Qed.

(** A number of exactly [k + 1] digits gives [k + 1] characters. *)
Lemma length_hex_digits_aux (k : nat) : forall (fuel : nat) (n : Z),
  16 ^ Z.of_nat k <= n < 16 ^ Z.of_nat (S k) -> (k < fuel)%nat ->
  length (hex_digits_aux fuel n []) = S k.
Proof.
  induction k as [| k IH]; intros [| fuel] n Hn Hfuel; try lia.
  - simpl in Hn. simpl.
    rewrite Z.div_small by lia. done.
  - rewrite !Nat2Z.inj_succ, !Z.pow_succ_r in Hn by lia.
    rewrite Nat2Z.inj_succ in IH.
    assert (Hpow : 0 < 16 ^ Z.of_nat k) by (apply Z.pow_pos_nonneg; lia).
    assert (Hlo : 16 ^ Z.of_nat k <= n / 16)
      by (apply Z.div_le_lower_bound; lia).
    assert (Hhi : n / 16 < 16 ^ Z.succ (Z.of_nat k)).
    { rewrite Z.pow_succ_r by lia. apply Z.div_lt_upper_bound; lia. }
    simpl. destruct (n / 16 =? 0) eqn:Hq; [apply Z.eqb_eq in Hq; lia |].
    rewrite hex_digits_aux_app, length_app. simpl.
    rewrite (IH fuel (n / 16)); lia.
Qed.

Lemma Forall_upper_hex_digits_aux (fuel : nat) : forall (n : Z) (acc : list ascii),
  Forall (fun c => is_upper_hex c = true) acc ->
  Forall (fun c => is_upper_hex c = true) (hex_digits_aux fuel n acc).
Proof.
  induction fuel as [| fuel IH]; intros n acc Hacc; simpl; [done |].
  assert (Hcons : Forall (fun c => is_upper_hex c = true)
                    (hex_digit (n mod 16) :: acc))
    by (constructor; [apply hex_digit_is_upper_hex | done]).
  destruct (n / 16 =? 0); [done | by apply IH].
Qed.

Lemma length_string_of_list_ascii (l : list ascii) :
  String.length (string_of_list_ascii l) = length l.
Proof. induction l as [| c l IH]; simpl; congruence. Qed.

(** The fuel of [hex_digits] is enough for every natural number. *)
Lemma hex_value_hex_digits (n : Z) : 0 <= n -> hex_value (hex_digits n) = n.
Proof.
  intros Hn. apply hex_value_hex_digits_aux. split; [done |].
  destruct (Z.eq_dec n 0) as [-> | Hne]; [done |].
  rewrite Nat2Z.inj_succ, Z2Nat.id by apply Z.log2_nonneg.
  pose proof (Z.log2_spec n ltac:(lia)) as [_ Hlt].
  eapply Z.lt_le_trans; [exact Hlt |].
  apply Z.pow_le_mono_l. lia.
Qed.

(** Sixteen digits exactly for the upper half of the unsigned 64-bit range. *)
Lemma format_016X_upper_half (n : Z) :
  2 ^ 63 <= n < 2 ^ 64 ->
  format_016X n = string_of_list_ascii (hex_digits n)
  /\ length (hex_digits n) = 16%nat.
Proof.
  intros Hn.
  assert (Hlen : length (hex_digits n) = 16%nat).
  { unfold hex_digits.
    assert (Hlog : Z.log2 n = 63) by (apply Z.log2_unique; lia).
    rewrite Hlog.
    apply (length_hex_digits_aux 15); [| vm_compute; lia].
    change (16 ^ Z.of_nat 15) with (2 ^ 60).
    change (16 ^ Z.of_nat 16) with (2 ^ 64). lia. }
  split; [| done].
  unfold format_016X, zero_fill.
  destruct (n <? 0) eqn:Hneg; [apply Z.ltb_lt in Hneg; lia |].
  by rewrite Hlen.
Qed.

End Hex.

(** Unfolding of the monad and of the primitive operations. *)
Ltac step_monad :=
  cbv [mbind M_bind bind mret M_ret ret raise emit log
       get_scrobble_timer set_scrobble_timer isValid invalidate scheduledTimer
       timer_fired run_handler outcome world_of effects_of fst snd app
       negb orb andb].

(** C7: for every negative signed 64-bit snapshot id [v] the fire handler
    expects [v + 2^64], printed with exactly sixteen upper-case hexadecimal
    digits (which denote [v + 2^64]); for [-1] this is [2^64 - 1], printed
    as sixteen [F]. *)
Theorem persistent_id_sign_correction (v : Z) :
  - 2 ^ 63 <= v < 0 ->
  unsigned_persistent_id v = v + 2 ^ 64
  /\ expected_persistent_id v = format_016X (v + 2 ^ 64)
  /\ String.length (expected_persistent_id v) = 16%nat
  /\ Forall (fun c => is_upper_hex c = true)
            (list_ascii_of_string (expected_persistent_id v))
  /\ hex_value (list_ascii_of_string (expected_persistent_id v)) = v + 2 ^ 64
  /\ unsigned_persistent_id (-1) = 2 ^ 64 - 1
  /\ format_016X (2 ^ 64 - 1) = "FFFFFFFFFFFFFFFF"%string.
Proof.
  intros Hv.
  assert (Hu : unsigned_persistent_id v = v + 2 ^ 64).
  { unfold unsigned_persistent_id.
    destruct (v <? 0) eqn:Hneg; [done | apply Z.ltb_ge in Hneg; lia]. }
  destruct (format_016X_upper_half (v + 2 ^ 64)) as [Hfmt Hlen]; [lia |].
  unfold expected_persistent_id. rewrite Hu, Hfmt.
  rewrite length_string_of_list_ascii, list_ascii_of_string_of_list_ascii.
  repeat split; try done.
  - by apply Forall_upper_hex_digits_aux.
  - apply hex_value_hex_digits. lia.
Qed.

Lemma persistent_id_sign_correction_witness :
  expected_persistent_id (-1) = "FFFFFFFFFFFFFFFF"%string
  /\ String.length (expected_persistent_id (-1)) = 16%nat.
Proof.
  destruct (persistent_id_sign_correction (-1)) as (_ & _ & Hlen & _).
  { vm_compute. split; congruence. }
  split; [reflexivity | exact Hlen].
Defined.

(** ** The fire handler *)

Ltac fire_handler :=
  unfold scrobbleTimerFired_; step_monad;
  cbn [negb artist title album album_artist track_number duration timestamp].

Section Fire.

Variables (w : World) (timer : Timer) (env : Env).

(** The handler does not touch the state, whatever it decides. *)
Lemma scrobbleTimerFired_world :
  world_of (scrobbleTimerFired_ timer env w) = w.
Proof. fire_handler. repeat case_match; simplify_eq; done. Qed.

(** Every submission carries the time stamp computed on line 181. *)
Lemma scrobbleTimerFired_timestamp (kwargs : Kwargs) :
  In kwargs (scrobbles (effects_of (scrobbleTimerFired_ timer env w))) ->
  timestamp kwargs =
  Some (int_of_Q (double_sub (time_time env) (playerPosition env))).
Proof.
  fire_handler. repeat case_match; simplify_eq; cbn; intros H;
    repeat (destruct H as [<- | H]; [done |]); done.
Qed.

(** C1: the timer fires (it is valid) and the player is playing.  If the
    live track has an id that differs from the expected one, nothing is
    submitted; if it has the expected id, one scrobble is submitted with the
    fields of the live track, the duration as whole seconds; if it has no
    id, one scrobble is submitted with the fields of the snapshot. *)
Theorem fire_identity_case_analysis (snapshot_id : Z) :
  is_Some (valid_timers w !! timer_id timer) ->
  playerState env = ITUNES_PLAYER_STATE_PLAYING ->
  UserInfo.PersistentID (userInfo timer) = Some snapshot_id ->
  let fired := scrobbleTimerFired_ timer env w in
  let live := currentTrack env in
  let snapshot := userInfo timer in
  let stamp :=
    Some (int_of_Q (double_sub (time_time env) (playerPosition env))) in
  (forall actual,
     Track.persistentID live = Some actual ->
     actual <> expected_persistent_id snapshot_id ->
     outcome fired = Ok tt /\ scrobbles (effects_of fired) = [])
  /\ (forall seconds,
        Track.persistentID live = Some (expected_persistent_id snapshot_id) ->
        Track.duration live = Some seconds ->
        outcome fired = Ok tt
        /\ scrobbles (effects_of fired) =
           [ {| artist := Track.artist live;
                album_artist := Track.albumArtist live;
                title := Track.name live;
                album := Track.album live;
                track_number := Track.trackNumber live;
                duration := Some (int_of_Q seconds);
                timestamp := stamp |} ])
  /\ (Track.persistentID live = None ->
      outcome fired = Ok tt
      /\ scrobbles (effects_of fired) =
         [ {| artist := UserInfo.Artist snapshot;
              album_artist := UserInfo.Album_Artist snapshot;
              title := UserInfo.Name snapshot;
              album := UserInfo.Album snapshot;
              track_number := UserInfo.Track_Number snapshot;
              duration :=
                or_None (default 0 (UserInfo.Total_Time snapshot) / 1000);
              timestamp := stamp |} ]).
Proof.
  intros Hvalid Hplaying Hid. cbv zeta.
  repeat apply conj.
  - intros actual Hactual Hdiffers. apply String.eqb_neq in Hdiffers.
    fire_handler. rewrite bool_decide_true, Hplaying, Z.eqb_refl, Hid by done.
    by rewrite Hactual, Hdiffers.
  - intros seconds Hactual Hseconds.
    fire_handler. rewrite bool_decide_true, Hplaying, Z.eqb_refl, Hid by done.
    by rewrite Hactual, String.eqb_refl, Hseconds.
  - intros Hactual.
    fire_handler. rewrite bool_decide_true, Hplaying, Z.eqb_refl, Hid by done.
    by rewrite Hactual.
Qed.

(** C8, as the code has it: the time stamp of a submission is the clock
    minus the player position, subtracted as floats and truncated by
    [int]; this is the floor of that rounded difference as soon as the
    position does not exceed the clock. *)
Theorem timestamp_truncates_difference (kwargs : Kwargs) :
  In kwargs (scrobbles (effects_of (scrobbleTimerFired_ timer env w))) ->
  let difference := double_sub (time_time env) (playerPosition env) in
  timestamp kwargs = Some (int_of_Q difference)
  /\ ((playerPosition env <= time_time env)%Q ->
      timestamp kwargs = Some (Qfloor difference)).
Proof.
  intros Hin. cbv zeta. apply scrobbleTimerFired_timestamp in Hin.
  split; [done |]. intros Hle. rewrite Hin. unfold int_of_Q.
  apply Qle_minus_iff in Hle. apply round_double_nonneg in Hle.
  apply Qle_bool_iff in Hle. unfold double_sub, Qminus. by rewrite Hle.
Qed.

End Fire.

Lemma fire_identity_case_analysis_witness :
  scrobbles (effects_of (scrobbleTimerFired_ example_timer
                           (example_env None None) example_world)) =
  [ {| artist := Some "Snapshot Artist"%string;
       album_artist := None;
       title := Some "Snapshot Title"%string;
       album := Some "Snapshot Album"%string;
       track_number := Some 3;
       duration := Some 40;
       timestamp := Some 997 |} ].
Proof.
  destruct (fire_identity_case_analysis example_world example_timer
              (example_env None None) (-1)) as (_ & _ & Hnone);
    [eexists; reflexivity | reflexivity | reflexivity |].
  destruct Hnone as [_ ->]; reflexivity.
Defined.

Lemma timestamp_truncates_difference_witness :
  Some 997 = Some (int_of_Q (double_sub (1000 # 1) (5 # 2))).
Proof.
  refine (proj1 (timestamp_truncates_difference example_world example_timer
                   (example_env None None)
                   {| artist := Some "Snapshot Artist"%string;
                      album_artist := None;
                      title := Some "Snapshot Title"%string;
                      album := Some "Snapshot Album"%string;
                      track_number := Some 3;
                      duration := Some 40;
                      timestamp := Some 997 |} _)).
  vm_compute. left. reflexivity.
Defined.

(** C8 as claimed fails: at time 1000, 2.5 seconds into the track, the
    submitted time stamp is 997, while 1000 - floor(2.5) is 998. *)
Lemma timestamp_is_not_clock_minus_floor_position :
  exists kwargs,
    scrobbles (effects_of (scrobbleTimerFired_ example_timer
                             (example_env None None) example_world)) = [kwargs]
    /\ timestamp kwargs = Some 997
    /\ ~ (inject_Z 997 ==
          time_time (example_env None None)
          - inject_Z (Qfloor (playerPosition (example_env None None))))%Q.
Proof.
  eexists. split; [reflexivity |]. split; [reflexivity |].
  vm_compute. discriminate.
Qed.

(** ** Track lengths *)

Section Lengths.

Lemma track_length_zero (ms : Z) :
  Qeq_bool (inject_Z ms / 1000) 0 = (ms =? 0).
Proof.
  unfold Qeq_bool, Qdiv, Qmult, Qinv, inject_Z. simpl.
  f_equal; lia.
Qed.

Lemma track_length_short (ms : Z) :
  Qlt_bool (inject_Z ms / 1000) (inject_Z SCROBBLER_MIN_TRACK_LENGTH)
  = (ms <? 30000).
Proof.
  unfold Qlt_bool, Qle_bool, Qdiv, Qmult, Qinv, inject_Z,
    SCROBBLER_MIN_TRACK_LENGTH. simpl.
  destruct (ms <? 30000) eqn:H; [apply Z.ltb_lt in H | apply Z.ltb_ge in H].
  - apply negb_true_iff, Z.leb_gt. lia.
  - apply negb_false_iff, Z.leb_le. lia.
Qed.

(** [ceil(ms / 1000 / 2)] in integer arithmetic. *)
Lemma half_length_ceiling (ms : Z) :
  Qceiling (inject_Z ms / 1000 / 2) = (ms + 1999) / 2000.
Proof.
  unfold Qceiling, Qfloor, Qdiv, Qmult, Qinv, Qopp, inject_Z. simpl.
  change (Z.pos (1 * 1000 * 2)) with 2000.
  replace (ms * 1 * 1) with ms by lia.
  Z.div_mod_to_equations. lia.
Qed.

End Lengths.

(** ** The notification handler *)

(** Evaluation of the tests on a known player state. *)
Ltac decide_state :=
  repeat match goal with
  | |- context [bool_decide (Some ?a = Some ?b)] =>
      let v := eval vm_compute in (bool_decide (Some a = Some b)) in
      change (bool_decide (Some a = Some b)) with v
  end.

Ltac notification_handler :=
  unfold receivedNotification_, update_now_playing, prepare_to_scrobble,
    set_up_timer, cancel_scrobble_timer;
  step_monad;
  cbn [negb artist title album album_artist track_number duration timestamp
       scrobble_timer valid_timers next_timer].

Section Notification.

Variables (w : World) (userinfo : UserInfo.t) (env : Env).

(** C6: a [Playing] notification whose artist or title is empty or missing
    sends no now-playing update and schedules no timer; the handler ends
    normally, having logged three debug lines and changed nothing. *)
Theorem playing_without_artist_or_title_is_ignored :
  UserInfo.Player_State userinfo = Some "Playing"%string ->
  truthy (UserInfo.Artist userinfo) = false
  \/ truthy (UserInfo.Name userinfo) = false ->
  let handled := receivedNotification_ userinfo env w in
  outcome handled = Ok tt
  /\ world_of handled = w
  /\ now_playing_updates (effects_of handled) = []
  /\ scheduled (effects_of handled) = []
  /\ effects_of handled =
     [ Log DEBUG "Got a notification: {}";
       Log DEBUG "Artist or title are missing, so ignoring...";
       Log DEBUG "update_now_playing returned False, so not going to scrobble." ].
Proof.
  intros Hstate Hmissing. cbv zeta. notification_handler.
  rewrite Hstate, bool_decide_true by done.
  destruct Hmissing as [-> | ->]; [done |].
  by destruct (truthy (UserInfo.Artist userinfo)).
Qed.
End Notification.

Lemma playing_without_artist_or_title_is_ignored_witness :
  world_of (receivedNotification_ (notification_of "Playing" None (Some 200000))
              (example_env None None) example_world)
  = example_world.
Proof.
  by destruct (playing_without_artist_or_title_is_ignored example_world
                 (notification_of "Playing" None (Some 200000))
                 (example_env None None) eq_refl (or_introl eq_refl))
    as (_ & Hworld & _).
Defined.

(** ** Scheduling *)

Ltac scheduling :=
  unfold prepare_to_scrobble, set_up_timer, cancel_scrobble_timer;
  step_monad;
  cbn [scrobble_timer valid_timers next_timer].

Section Scheduling.

Variables (w : World) (userinfo : UserInfo.t) (env : Env).

Lemma delays_known_length (pid ms : Z) :
  UserInfo.PersistentID userinfo = Some pid ->
  UserInfo.Total_Time userinfo = Some ms ->
  ms <> 0 ->
  delays (effects_of (prepare_to_scrobble userinfo env w)) = if ms <? 30000 then []
           else [Z.min (Qceiling (inject_Z ms / 1000 / 2))
                       SCROBBLER_HALFWAY_THRESHOLD].
Proof.
  intros Hid Hms Hnz. unfold delays. scheduling.
  rewrite Hid, Hms. cbn [default from_option id].
  rewrite track_length_zero, track_length_short.
  apply Z.eqb_neq in Hnz. rewrite Hnz.
  destruct (scrobble_timer w), (ms <? 30000); reflexivity.
Qed.

Lemma delays_unknown_length (pid : Z) :
  UserInfo.PersistentID userinfo = Some pid ->
  default 0 (UserInfo.Total_Time userinfo) = 0 ->
  delays (effects_of (prepare_to_scrobble userinfo env w)) = match Track.duration (currentTrack env) with
           | None => []
           | Some seconds =>
               if Qeq_bool seconds 0 then []
               else [Z.min (Qceiling (seconds / 2)) SCROBBLER_HALFWAY_THRESHOLD]
           end
  /\ In (Sleep 5) (effects_of (prepare_to_scrobble userinfo env w)).
Proof.
  intros Hid Hms. unfold delays. scheduling.
  rewrite Hid, Hms. change (Qeq_bool (inject_Z 0 / 1000) 0) with true.
  cbv iota.
  destruct (scrobble_timer w), (Track.duration (currentTrack env)) as [seconds |];
    try destruct (Qeq_bool seconds 0); cbn; auto 10.
Qed.

(** C2: with an identifier in the notification, a length of 0 is resolved
    by the query that follows the five second wait (a resolved 200 gives a
    delay of 100, an unresolved length abandons), and a known length of at
    least 30 seconds gives the delay min(ceil(length / 2), 240): 240 for
    500000 ms, 20 for 40000 ms, while 10000 ms abandons, as every known
    length below 30 seconds does.  A length resolved by the query gives
    min(ceil(length / 2), 240) whatever it is, and abandons when it is 0
    (stated for a length whose half is a float: of magnitude 2^-1021 at
    least). *)
Theorem scheduling_decision (pid : Z) :
  UserInfo.PersistentID userinfo = Some pid ->
  let prepared := effects_of (prepare_to_scrobble userinfo env w) in
  (default 0 (UserInfo.Total_Time userinfo) = 0 ->
     In (Sleep 5) prepared
     /\ (Track.duration (currentTrack env) = Some (200 # 1) ->
         delays prepared = [100])
     /\ (Track.duration (currentTrack env) = None -> delays prepared = []))
  /\ (forall ms, UserInfo.Total_Time userinfo = Some ms -> 30000 <= ms ->
        delays prepared = [Z.min (Qceiling (inject_Z ms / 1000 / 2)) 240]
        /\ Qceiling (inject_Z ms / 1000 / 2) = (ms + 1999) / 2000)
  /\ (UserInfo.Total_Time userinfo = Some 500000 -> delays prepared = [240])
  /\ (UserInfo.Total_Time userinfo = Some 40000 -> delays prepared = [20])
  /\ (UserInfo.Total_Time userinfo = Some 10000 -> delays prepared = [])
  /\ (forall ms, UserInfo.Total_Time userinfo = Some ms ->
        ms <> 0 -> ms < 30000 -> delays prepared = [])
  /\ (default 0 (UserInfo.Total_Time userinfo) = 0 ->
      forall seconds,
        Track.duration (currentTrack env) = Some seconds ->
        ((seconds == 0)%Q -> delays prepared = [])
        /\ ((Qpow2 (-1021) <= Qabs seconds)%Q ->
            delays prepared = [Z.min (Qceiling (seconds / 2)) 240])).
Proof.
  intros Hid. repeat apply conj.
  - intros Hzero.
    destruct (delays_unknown_length pid Hid Hzero) as [Hdelays Hsleep].
    repeat apply conj; [done | |]; intros Hlive;
      by rewrite Hdelays, Hlive.
  - intros ms Hms Hlong. split; [| apply half_length_ceiling].
    rewrite (delays_known_length pid ms Hid Hms) by lia.
    by rewrite (proj2 (Z.ltb_ge ms 30000)).
  - intros Hms. by rewrite (delays_known_length pid _ Hid Hms).
  - intros Hms. by rewrite (delays_known_length pid _ Hid Hms).
  - intros Hms. by rewrite (delays_known_length pid _ Hid Hms).
  - intros ms Hms Hnonzero Hshort.
    rewrite (delays_known_length pid ms Hid Hms Hnonzero).
    by rewrite (proj2 (Z.ltb_lt ms 30000)).
  - intros Hzero seconds Hlive.
    destruct (delays_unknown_length pid Hid Hzero) as [Hdelays _].
    rewrite Hdelays, Hlive. split.
    + intros Hnone. apply Qeq_bool_iff in Hnone. by rewrite Hnone.
    + intros Hnormal. destruct (Qeq_bool seconds 0) eqn:Hnone; [| done].
      apply Qeq_bool_iff in Hnone. rewrite Hnone in Hnormal.
      by apply Qle_not_lt in Hnormal.
Qed.

End Scheduling.

Lemma scheduling_decision_witness :
  delays (effects_of (prepare_to_scrobble example_userinfo
                        (example_env None None) initial)) = [20].
Proof.
  destruct (scheduling_decision initial example_userinfo
              (example_env None None) (-1)) as (_ & _ & _ & H40 & _);
    [reflexivity |].
  apply H40. reflexivity.
Defined.

(** C5 on the code: a notification of length 0 whose length is resolved to 10
    seconds by the query after the wait still gets a timer, due after 5
    seconds, and the fire of that timer submits the ten second track; the
    test against the minimum length sits on the other branch only. *)
Theorem short_length_from_fallback_is_scheduled :
  let resolved := example_env (Some "000000000000002A"%string) (Some (10 # 1)) in
  let notification :=
    notification_of "Playing" (Some "Artist"%string) (Some 0) in
  let handled := receivedNotification_ notification resolved initial in
  delays (effects_of handled) = [5]
  /\ (exists timer,
        scrobble_timer (world_of handled) = Some timer
        /\ valid_timers (world_of handled) !! timer_id timer = Some timer)
  /\ map duration
       (scrobbles (run [ Notification notification resolved;
                         TimerFire 0 resolved ] initial).2) = [Some 10].
Proof.
  cbv zeta. split; [reflexivity |]. split; [| reflexivity].
  eexists. split; reflexivity.
Qed.

(** ** Notifications and the outstanding timer *)

Section Cancellation.

Variables (w : World) (userinfo : UserInfo.t) (env : Env).

Lemma cancel_scrobble_timer_world :
  world_of (cancel_scrobble_timer w) = cancelled w
  /\ outcome (cancel_scrobble_timer w) = Ok tt.
Proof.
  unfold cancel_scrobble_timer, cancelled. step_monad.
  by destruct (scrobble_timer w).
Qed.

(** C4, as the code has it: a [Playing] notification with artist and title
    but without identifier sends the now-playing update, cancels the timer
    that is outstanding, logs a warning and schedules nothing. *)
Theorem playing_without_persistent_id_schedules_nothing :
  UserInfo.Player_State userinfo = Some "Playing"%string ->
  truthy (UserInfo.Artist userinfo) = true ->
  truthy (UserInfo.Name userinfo) = true ->
  UserInfo.PersistentID userinfo = None ->
  let handled := receivedNotification_ userinfo env w in
  outcome handled = Ok tt
  /\ length (now_playing_updates (effects_of handled)) = 1%nat
  /\ scheduled (effects_of handled) = []
  /\ world_of handled = cancelled w
  /\ scrobble_timer (world_of handled) = None
  /\ In (Log WARNING
           "Track being played doesn't have a PersistentID, so can't prepare to scrobble it!")
        (effects_of handled).
Proof.
  intros Hstate Hartist Htitle Hid. cbv zeta.
  unfold cancelled. notification_handler.
  rewrite Hstate, bool_decide_true, Hartist, Htitle, Hid by done.
  step_monad.
  destruct (scrobble_timer w) eqn:Hheld; cbn;
    (repeat apply conj; try done; simpl; auto 12).
Qed.

(** C9, as the code has it.  With [timer] outstanding: [Paused] and
    [Stopped] invalidate it before anything but logging; [Playing] with
    artist and title invalidates it after the now-playing update and
    before anything is scheduled; [Playing] without artist or title leaves
    the state as it is, the timer included. *)
Theorem outstanding_timer_on_notification (timer : Timer) :
  scrobble_timer w = Some timer ->
  (timer_id timer < next_timer w)%nat ->
  let handled := receivedNotification_ userinfo env w in
  (UserInfo.Player_State userinfo = Some "Paused"%string
   \/ UserInfo.Player_State userinfo = Some "Stopped"%string ->
     effects_of handled =
       [ Log DEBUG "Got a notification: {}";
         Log DEBUG "cancel_scrobble_timer";
         Log DEBUG "Invalidating timer...";
         TimerInvalidated (timer_id timer) ]
     /\ world_of handled = cancelled w)
  /\ (UserInfo.Player_State userinfo = Some "Playing"%string ->
      truthy (UserInfo.Artist userinfo) = true ->
      truthy (UserInfo.Name userinfo) = true ->
      (exists kwargs rest,
         effects_of handled =
           [ Log DEBUG "Got a notification: {}";
             Log DEBUG "Updating now playing with kwargs:\n{}";
             UpdateNowPlaying kwargs;
             Log DEBUG "prepare_to_scrobble";
             Log DEBUG "cancel_scrobble_timer";
             Log DEBUG "Invalidating timer...";
             TimerInvalidated (timer_id timer) ] ++ rest)
      /\ valid_timers (world_of handled) !! timer_id timer = None)
  /\ (UserInfo.Player_State userinfo = Some "Playing"%string ->
      truthy (UserInfo.Artist userinfo) = false
      \/ truthy (UserInfo.Name userinfo) = false ->
      world_of handled = w
      /\ Forall (fun e => is_log e = true) (effects_of handled)).
Proof.
  intros Hheld Hfresh. cbv zeta. unfold cancelled. repeat apply conj.
  - intros Hstate. unfold receivedNotification_.
    destruct Hstate as [-> | ->]; decide_state; notification_handler;
      by rewrite Hheld.
  - intros Hstate Hartist Htitle. notification_handler.
    rewrite Hstate, bool_decide_true, Hartist, Htitle, Hheld by done.
    step_monad. cbn [scrobble_timer valid_timers next_timer].
    repeat case_match; simplify_eq; (split; [by eexists _, _ |]); cbn;
      rewrite ?lookup_insert_ne by lia; apply lookup_delete_eq.
  - intros Hstate Hmissing. notification_handler.
    rewrite Hstate, bool_decide_true by done.
    destruct Hmissing as [-> | ->];
      [| destruct (truthy (UserInfo.Artist userinfo))];
      (split; [done | by repeat constructor]).
Qed.

End Cancellation.

Lemma playing_without_persistent_id_schedules_nothing_witness :
  scheduled (effects_of (receivedNotification_ stream_userinfo
                           (example_env None None) example_world)) = [].
Proof.
  by destruct (playing_without_persistent_id_schedules_nothing example_world
                 stream_userinfo (example_env None None))
    as (_ & _ & Hnone & _).
Defined.

(** C4 as claimed fails: the notification of a forty second stream without
    identifier creates no timer and leaves none held, whereas the same
    notification with an identifier gets its timer after 20 seconds; when
    the run loop is asked to fire that first timer, nothing is submitted. *)
Lemma stream_notification_gets_no_timer :
  let stream := Notification stream_userinfo (example_env None None) in
  let identified := Notification example_userinfo (example_env None None) in
  scheduled (run [stream] initial).2 = []
  /\ scrobble_timer (run [stream] initial).1 = None
  /\ scrobbles (run [stream; TimerFire 0 (example_env None None)] initial).2 = []
  /\ delays (run [identified] initial).2 = [20].
Proof. cbv zeta. repeat split; reflexivity. Qed.

Lemma outstanding_timer_on_notification_witness :
  world_of (receivedNotification_ (notification_of "Paused" None None)
              (example_env None None) example_world)
  = cancelled example_world.
Proof.
  destruct (outstanding_timer_on_notification example_world
              (notification_of "Paused" None None) (example_env None None)
              example_timer) as ([_ Hworld] & _);
    [reflexivity | cbn; lia | by left | exact Hworld].
Defined.

(** C9 as claimed fails: with the timer of the example outstanding, a
    [Playing] notification without artist invalidates nothing; the timer is
    still held and still valid afterwards. *)
Lemma playing_without_artist_keeps_outstanding_timer :
  let handled :=
    receivedNotification_ (notification_of "Playing" None (Some 200000))
      (example_env None None) example_world in
  scrobble_timer example_world = Some example_timer
  /\ valid_timers example_world !! timer_id example_timer = Some example_timer
  /\ scrobble_timer (world_of handled) = Some example_timer
  /\ valid_timers (world_of handled) !! timer_id example_timer = Some example_timer
  /\ ~ In (TimerInvalidated (timer_id example_timer)) (effects_of handled).
Proof.
  cbv zeta. repeat split; try reflexivity.
  cbn. intros H. repeat (destruct H as [H | H]; [discriminate H |]). exact H.
Qed.

(** ** After the fire *)

(** Membership in an explicit list. *)
Ltac in_list := repeat first [ left; reflexivity | right ].

(** Case analysis along the handlers, with [Hheld] telling which timer is
    held. *)
Ltac handler_cases Hheld :=
  repeat (first [ rewrite Hheld | case_bool_decide | case_match ];
          simplify_eq; step_monad;
          cbn [scrobble_timer valid_timers next_timer]).

Lemma deliver_fire_world (w : World) (id : nat) (env : Env) (timer : Timer) :
  valid_timers w !! id = Some timer ->
  world_of (deliver (TimerFire id env) w) =
    {| scrobble_timer := scrobble_timer w;
       valid_timers := delete (timer_id timer) (valid_timers w);
       next_timer := next_timer w |}
  /\ In (TimerFired (timer_id timer)) (effects_of (deliver (TimerFire id env) w)).
Proof.
  intros Hvalid. unfold deliver. rewrite Hvalid.
  pose proof (scrobbleTimerFired_world w timer env) as Hworld.
  revert Hworld. step_monad.
  destruct (scrobbleTimerFired_ timer env w) as [[[] w1] out];
    intros ->; (split; [done |]); apply in_or_app; right; cbn; auto.
Qed.

Lemma deliver_fire_not_valid (w : World) (id : nat) (env : Env) :
  valid_timers w !! id = None ->
  deliver (TimerFire id env) w = (Ok tt, w, []).
Proof. intros Hvalid. unfold deliver. by rewrite Hvalid. Qed.

(** Whatever is delivered, the reference to the held timer is dropped by
    [cancel_scrobble_timer] only. *)
Lemma reset_only_by_cancel (w : World) (timer : Timer) (ev : Event) :
  scrobble_timer w = Some timer ->
  scrobble_timer (world_of (deliver ev w)) = None ->
  exists userinfo env,
    ev = Notification userinfo env
    /\ (UserInfo.Player_State userinfo = Some "Playing"%string
        \/ UserInfo.Player_State userinfo = Some "Paused"%string
        \/ UserInfo.Player_State userinfo = Some "Stopped"%string)
    /\ world_of (deliver ev w) = cancelled w
    /\ In (TimerInvalidated (timer_id timer)) (effects_of (deliver ev w)).
Proof.
  intros Hheld. destruct ev as [userinfo env | id env].
  - intros Hnone. exists userinfo, env. split; [done |]. revert Hnone.
    unfold deliver, cancelled. notification_handler.
    handler_cases Hheld.
    all: intros Hnone; simplify_eq.
    all: repeat apply conj; auto; cbn; in_list.
  - destruct (valid_timers w !! id) as [fired |] eqn:Hvalid.
    + destruct (deliver_fire_world w id env fired Hvalid) as [-> _].
      cbn. congruence.
    + rewrite deliver_fire_not_valid by done. cbn. congruence.
Qed.

Section AfterFire.

Variables (w : World) (timer : Timer) (env : Env).

(** C10: the fire handler leaves the state as it is; once the run loop has
    fired the held timer, [scrobble_timer] still refers to it although it
    is no longer valid.  The reference is dropped by
    [cancel_scrobble_timer] only, on a [Playing], [Paused] or [Stopped]
    notification, and invalidating the fired timer then changes nothing
    for the run loop. *)
Theorem fire_keeps_the_timer_reference :
  scrobble_timer w = Some timer ->
  valid_timers w !! timer_id timer = Some timer ->
  let fired := deliver (TimerFire (timer_id timer) env) w in
  let afterwards := cancel_scrobble_timer (world_of fired) in
  world_of (scrobbleTimerFired_ timer env w) = w
  /\ scrobble_timer (world_of fired) = Some timer
  /\ valid_timers (world_of fired) !! timer_id timer = None
  /\ scrobble_timer (world_of afterwards) = None
  /\ valid_timers (world_of afterwards) = valid_timers (world_of fired)
  /\ In (TimerInvalidated (timer_id timer)) (effects_of afterwards)
  /\ (forall ev,
        scrobble_timer (world_of (deliver ev (world_of fired))) = None ->
        exists userinfo env',
          ev = Notification userinfo env'
          /\ (UserInfo.Player_State userinfo = Some "Playing"%string
              \/ UserInfo.Player_State userinfo = Some "Paused"%string
              \/ UserInfo.Player_State userinfo = Some "Stopped"%string)
          /\ world_of (deliver ev (world_of fired))
             = cancelled (world_of fired)).
Proof.
  intros Hheld Hvalid. cbv zeta.
  destruct (deliver_fire_world w (timer_id timer) env timer Hvalid)
    as [Hfired _].
  rewrite Hfired. clear Hfired.
  set (fired := {| scrobble_timer := scrobble_timer w;
                   valid_timers := delete (timer_id timer) (valid_timers w);
                   next_timer := next_timer w |}).
  assert (Hkept : scrobble_timer fired = Some timer) by done.
  destruct (cancel_scrobble_timer_world fired) as [Hworld _].
  rewrite Hworld. unfold cancelled. rewrite Hkept.
  repeat apply conj.
  - apply scrobbleTimerFired_world.
  - done.
  - apply lookup_delete_eq.
  - done.
  - apply delete_id, lookup_delete_eq.
  - unfold cancel_scrobble_timer. step_monad. rewrite Hkept. cbn. in_list.
  - intros ev Hnone.
    destruct (reset_only_by_cancel fired timer ev Hkept Hnone)
      as (userinfo & env' & -> & Hstate & Hcancelled & _).
    exists userinfo, env'. unfold cancelled in Hcancelled.
    by rewrite Hkept in Hcancelled.
Qed.

End AfterFire.

Lemma fire_keeps_the_timer_reference_witness :
  scrobble_timer
    (world_of (deliver (TimerFire 0 (example_env None None)) example_world))
  = Some example_timer.
Proof.
  by destruct (fire_keeps_the_timer_reference example_world example_timer
                 (example_env None None) eq_refl eq_refl) as (_ & Hkept & _).
Defined.

(** ** At most one live timer *)

Section Discipline.

Implicit Types (live : gset nat) (w : World).

Lemma live_after_app live (a b : list Effect) :
  live_after live (a ++ b) = live_after (live_after live a) b.
Proof. apply fold_left_app. Qed.

Lemma disciplined_app (a b : list Effect) : forall live,
  disciplined live (a ++ b)
  <-> disciplined live a /\ disciplined (live_after live a) b.
Proof.
  induction a as [| e a IH]; intros live; simpl; [tauto |].
  rewrite IH. unfold live_after. simpl. tauto.
Qed.

(** What [disciplined] means for a moment inside the effects. *)
Lemma disciplined_at (before after : list Effect) : forall live,
  (size live <= 1)%nat ->
  disciplined live (before ++ after) ->
  (size (live_after live before) <= 1)%nat
  /\ (forall timer rest,
        after = TimerScheduled timer :: rest -> live_after live before = ∅).
Proof.
  induction before as [| e before IH]; intros live Hsize Hall.
  - split; [done |]. intros timer rest ->. simpl in Hall.
    by apply (proj1 Hall timer).
  - simpl in Hall. destruct Hall as (_ & Hstep & Hrest).
    apply (IH _ Hstep Hrest).
Qed.

(** The three shapes of a state in which at most the held timer is
    valid. *)
Lemma at_most_held_cases w :
  at_most_held w ->
  valid_timers w = ∅
  \/ exists timer, scrobble_timer w = Some timer
                   /\ valid_timers w = {[ timer_id timer := timer ]}.
Proof.
  intros Hinv.
  destruct (decide (valid_timers w = ∅)) as [| Hne]; [by left | right].
  apply map_choose in Hne as (id & timer & Hlookup).
  destruct (Hinv id timer Hlookup) as [Hheld <-].
  exists timer. split; [done |].
  apply map_eq. intros i.
  destruct (decide (i = timer_id timer)) as [-> | Hi].
  - by rewrite lookup_singleton_eq.
  - rewrite lookup_singleton_ne by done.
    destruct (valid_timers w !! i) as [other |] eqn:Hother; [| done].
    destruct (Hinv i other Hother) as [Hheld' <-]. congruence.
Qed.

Lemma at_most_held_empty (held : option Timer) (next : nat) :
  at_most_held {| scrobble_timer := held; valid_timers := ∅; next_timer := next |}.
Proof. intros id timer. cbn. by rewrite lookup_empty. Qed.

Lemma at_most_held_singleton (timer : Timer) (next : nat) :
  at_most_held {| scrobble_timer := Some timer;
                  valid_timers := {[ timer_id timer := timer ]};
                  next_timer := next |}.
Proof.
  intros id other. cbn. rewrite lookup_singleton_Some. by intros [<- <-].
Qed.

Lemma size_at_most_one live :
  (forall x y, x ∈ live -> y ∈ live -> x = y) -> (size live <= 1)%nat.
Proof.
  intros Hsame.
  destruct (set_choose_or_empty live) as [[x Hx] | Hempty].
  - rewrite <- (size_singleton (C := gset nat) x).
    apply subseteq_size. intros y Hy. apply elem_of_singleton. by apply Hsame.
  - apply size_empty_iff in Hempty. lia.
Qed.

End Discipline.

#[local] Set Warnings "-clear-no-such-hyp".

Ltac timers_leaf :=
  cbn [disciplined live_after fold_left live_step timer_id];
  rewrite ?delete_empty, ?delete_singleton_eq, ?insert_empty,
    ?dom_empty_L, ?dom_singleton_L;
  repeat apply conj;
  first [ exact I
        | apply at_most_held_empty
        | apply at_most_held_singleton
        | intros ? ?; first [ discriminate | set_solver ]
        | apply size_at_most_one; set_solver
        | set_solver ].

(** One test of a handler decided both ways. *)
Ltac case_condition :=
  match goal with
  | |- context [bool_decide ?P] => destruct (bool_decide P)
  | |- context [truthy ?s] => destruct (truthy s)
  | |- context [Qeq_bool ?a ?b] => destruct (Qeq_bool a b)
  | |- context [Qlt_bool ?a ?b] => destruct (Qlt_bool a b)
  | |- context [String.eqb ?a ?b] => destruct (String.eqb a b)
  | |- context [Z.eqb ?a ?b] => destruct (Z.eqb a b)
  | |- context [match UserInfo.PersistentID ?u with _ => _ end] =>
      destruct (UserInfo.PersistentID u)
  | |- context [match Track.duration ?t with _ => _ end] =>
      destruct (Track.duration t)
  | |- context [match Track.persistentID ?t with _ => _ end] =>
      destruct (Track.persistentID t)
  | |- context [match ?x with Some _ => _ | None => _ end] =>
      is_var x; destruct x
  end.

(** Every path through a handler, each closed by [timers_leaf]. *)
Ltac handler_leaves :=
  repeat (case_condition; step_monad;
          cbn [scrobble_timer valid_timers next_timer]);
  timers_leaf.

Lemma deliver_disciplined (w : World) (ev : Event) :
  at_most_held w ->
  at_most_held (world_of (deliver ev w))
  /\ disciplined (dom (valid_timers w)) (effects_of (deliver ev w))
  /\ live_after (dom (valid_timers w)) (effects_of (deliver ev w))
     = dom (valid_timers (world_of (deliver ev w))).
Proof.
  intros Hinv. destruct w as [held valid next].
  apply at_most_held_cases in Hinv. cbn in Hinv.
  destruct Hinv as [-> | (timer & -> & ->)]; destruct ev as [userinfo env | id env].
  - unfold deliver. notification_handler. handler_leaves.
  - unfold deliver. cbn [valid_timers]. rewrite lookup_empty. timers_leaf.
  - unfold deliver. notification_handler. handler_leaves.
  - unfold deliver. cbn [valid_timers].
    destruct (decide (id = timer_id timer)) as [-> | Hother].
    + rewrite lookup_singleton_eq. fire_handler.
      cbn [valid_timers]. rewrite lookup_singleton_eq.
      rewrite bool_decide_true by done. handler_leaves.
    + rewrite lookup_singleton_ne by done. timers_leaf.
Qed.

Lemma run_disciplined (events : list Event) : forall w : World,
  at_most_held w ->
  at_most_held (run events w).1
  /\ disciplined (dom (valid_timers w)) (run events w).2
  /\ live_after (dom (valid_timers w)) (run events w).2
     = dom (valid_timers (run events w).1).
Proof.
  induction events as [| ev events IH]; intros w Hinv;
    [repeat apply conj; [exact Hinv | exact I | reflexivity] |].
  destruct (deliver_disciplined w ev Hinv) as (Hinv' & Hdisc & Hlive).
  destruct (IH _ Hinv') as (Hinv'' & Hdisc' & Hlive').
  cbn [run fst snd]. rewrite disciplined_app, live_after_app, Hlive.
  done.
Qed.

(** C3: in the effects of any sequence of events, started with no timer, at
    most one timer is live at every moment, and at the moment a timer is
    scheduled none is live: the one held before has been invalidated or has
    fired.  The live timers computed from the effects are the valid timers
    of the run loop. *)
Theorem at_most_one_live_timer (events : list Event)
    (before after : list Effect) :
  (run events initial).2 = before ++ after ->
  (size (live_after ∅ before) <= 1)%nat
  /\ (forall timer rest,
        after = TimerScheduled timer :: rest -> live_after ∅ before = ∅)
  /\ live_after ∅ (run events initial).2
     = dom (valid_timers (run events initial).1)
  /\ (size (dom (valid_timers (run events initial).1)) <= 1)%nat.
Proof.
  intros Hsplit.
  destruct (run_disciplined events initial (at_most_held_empty None 0))
    as (_ & Hdisc & Hlive).
  cbn [valid_timers initial] in Hdisc, Hlive. rewrite dom_empty_L in Hdisc, Hlive.
  assert (Hnone : (size (∅ : gset nat) <= 1)%nat) 
    by (apply size_at_most_one; set_solver).
  rewrite Hsplit in Hdisc.
  destruct (disciplined_at before after ∅ Hnone Hdisc) as [Hsize Hsched].
  repeat apply conj; [done | done | done |].
  rewrite <- Hlive, Hsplit.
  rewrite <- (app_nil_r (before ++ after)) in Hdisc.
  by destruct (disciplined_at (before ++ after) [] ∅ Hnone Hdisc).
Qed.

Lemma at_most_one_live_timer_witness :
  (size (live_after ∅ (take 12 (run example_events initial).2)) <= 1)%nat.
Proof.
  refine (proj1 (at_most_one_live_timer example_events
                   (take 12 (run example_events initial).2)
                   (drop 12 (run example_events initial).2) _)).
  reflexivity.
Defined.

(** * Further properties of the handlers *)

(** ** What a notification does and never does *)

(** Every path through the notification handler, for any state. *)
Ltac reduce_fields :=
  cbn [artist title album album_artist track_number duration timestamp
       scrobble_timer valid_timers next_timer].

Ltac notification_paths :=
  unfold receivedNotification_, update_now_playing, prepare_to_scrobble,
    set_up_timer, cancel_scrobble_timer;
  step_monad; reduce_fields;
  repeat (case_condition; step_monad; reduce_fields).

(** X1: the now-playing update is sent exactly for a [Playing] notification
    with a non-empty artist and title, once, with the fields of the
    notification and the duration in whole seconds (absent when zero). *)
Theorem now_playing_exactly_with_metadata
    (w : World) (userinfo : UserInfo.t) (env : Env) :
  now_playing_updates (effects_of (receivedNotification_ userinfo env w)) =
  if bool_decide (UserInfo.Player_State userinfo = Some "Playing"%string)
     && truthy (UserInfo.Artist userinfo) && truthy (UserInfo.Name userinfo)
  then [ snapshot_kwargs userinfo ]
  else [].
Proof.
  destruct w as [held valid next]. unfold snapshot_kwargs.
  notification_paths; reflexivity.
Qed.

(** X2: whatever the notification and the state, the notification handler
    submits no scrobble, creates at most one timer and waits at most once,
    for five seconds. *)
Theorem notification_never_scrobbles
    (w : World) (userinfo : UserInfo.t) (env : Env) :
  let handled := receivedNotification_ userinfo env w in
  scrobbles (effects_of handled) = []
  /\ (length (scheduled (effects_of handled)) <= 1)%nat
  /\ (sleeps (effects_of handled) = [] \/ sleeps (effects_of handled) = [5]).
Proof.
  cbv zeta. destruct w as [held valid next].
  notification_paths; cbn; auto with lia.
Qed.

(** X3: the handler blocks, for five seconds, exactly when a [Playing]
    notification with artist, title and identifier has a ["Total Time"] that
    is 0 or missing. *)
Theorem blocking_wait_exactly_for_zero_length
    (w : World) (userinfo : UserInfo.t) (env : Env) :
  sleeps (effects_of (receivedNotification_ userinfo env w)) =
  if bool_decide (UserInfo.Player_State userinfo = Some "Playing"%string)
     && truthy (UserInfo.Artist userinfo) && truthy (UserInfo.Name userinfo)
     && bool_decide (is_Some (UserInfo.PersistentID userinfo))
     && (default 0 (UserInfo.Total_Time userinfo) =? 0)
  then [5]
  else [].
Proof.
  destruct w as [held valid next].
  unfold receivedNotification_, prepare_to_scrobble.
  rewrite track_length_zero.
  destruct (UserInfo.PersistentID userinfo);
    [rewrite (bool_decide_true (is_Some (Some _))) by done
    | rewrite (bool_decide_false (is_Some None)) by (by intros [? ?])];
    notification_paths; reflexivity.
Qed.

(** X4: a notification whose state is neither [Playing], [Paused] nor
    [Stopped], or has no state at all, is only reported: the state is left
    as it is, timer included, and nothing is sent. *)
Theorem unrecognised_state_is_only_reported
    (w : World) (userinfo : UserInfo.t) (env : Env) :
  UserInfo.Player_State userinfo <> Some "Playing"%string ->
  UserInfo.Player_State userinfo <> Some "Paused"%string ->
  UserInfo.Player_State userinfo <> Some "Stopped"%string ->
  let handled := receivedNotification_ userinfo env w in
  world_of handled = w
  /\ effects_of handled =
     [ Log DEBUG "Got a notification: {}";
       Log INFO "Unrecognised player state: {}" ].
Proof.
  intros Hplaying Hpaused Hstopped. cbv zeta.
  unfold receivedNotification_. step_monad.
  by rewrite !bool_decide_false by done.
Qed.

Lemma unrecognised_state_is_only_reported_witness :
  world_of (receivedNotification_ (notification_of "Buffering" None None)
              (example_env None None) example_world)
  = example_world.
Proof.
  by destruct (unrecognised_state_is_only_reported example_world
                 (notification_of "Buffering" None None) (example_env None None)
                 ltac:(discriminate) ltac:(discriminate) ltac:(discriminate)).
Defined.

(** X5: cancelling is idempotent: a second [cancel_scrobble_timer] finds no
    timer, invalidates nothing and leaves the state of the first. *)
Theorem cancel_scrobble_timer_idempotent (w : World) :
  let once := cancel_scrobble_timer w in
  let twice := cancel_scrobble_timer (world_of once) in
  scrobble_timer (world_of once) = None
  /\ world_of twice = world_of once
  /\ effects_of twice =
     [ Log DEBUG "cancel_scrobble_timer"; Log DEBUG "No timer to invalidate" ].
Proof.
  cbv zeta. destruct w as [[held |] valid next];
    unfold cancel_scrobble_timer; step_monad; reduce_fields; done.
Qed.

(** X6: the duration sent with the now-playing update is the length in
    whole seconds, rounded down; it is absent exactly when ["Total Time"] is
    missing or between 0 and 999 milliseconds. *)
Theorem now_playing_duration_in_whole_seconds
    (w : World) (userinfo : UserInfo.t) (env : Env) (kwargs : Kwargs) :
  In kwargs (now_playing_updates
               (effects_of (receivedNotification_ userinfo env w))) ->
  let ms := default 0 (UserInfo.Total_Time userinfo) in
  (duration kwargs = None <-> 0 <= ms < 1000)
  /\ (forall seconds, duration kwargs = Some seconds ->
        seconds <> 0 /\ 1000 * seconds <= ms < 1000 * seconds + 1000).
Proof.
  rewrite now_playing_exactly_with_metadata.
  intros Hin. cbv zeta.
  assert (Hkw : duration kwargs =
                or_None (default 0 (UserInfo.Total_Time userinfo) / 1000)).
  { destruct (_ && _); [| done]. by destruct Hin as [<- | []]. }
  rewrite Hkw. unfold or_None.
  set (ms := default 0 (UserInfo.Total_Time userinfo)).
  destruct (ms / 1000 =? 0) eqn:Hq;
    [apply Z.eqb_eq in Hq | apply Z.eqb_neq in Hq]; split.
  - split; [intros _ | done]. Z.div_mod_to_equations. lia.
  - intros seconds [=].
  - split; [done |]. intros Hsmall. exfalso. apply Hq, Z.div_small. lia.
  - intros seconds [= <-]. split; [done |]. Z.div_mod_to_equations. lia.
Qed.

Lemma now_playing_duration_in_whole_seconds_witness :
  40 <> 0
  /\ 1000 * 40 <= default 0 (UserInfo.Total_Time example_userinfo)
     < 1000 * 40 + 1000.
Proof.
  destruct (now_playing_duration_in_whole_seconds initial example_userinfo
              (example_env None None) (snapshot_kwargs example_userinfo))
    as [_ Hsome]; [left; reflexivity |].
  exact (Hsome 40 eq_refl).
Defined.

(** ** The timer a notification creates *)

(** X7: a timer created for a notification carries that notification, which
    has an identifier, and is due after at most 240 seconds; when the length
    came with the notification, the track lasts at least 30 seconds and the
    timer is due after at least 15. *)
Theorem scheduled_timer_bounds
    (w : World) (userinfo : UserInfo.t) (env : Env) (timer : Timer) :
  In timer (scheduled (effects_of (receivedNotification_ userinfo env w))) ->
  let ms := default 0 (UserInfo.Total_Time userinfo) in
  userInfo timer = userinfo
  /\ timer_id timer = next_timer w
  /\ is_Some (UserInfo.PersistentID userinfo)
  /\ timeInterval timer <= 240
  /\ (ms <> 0 -> 30000 <= ms /\ 15 <= timeInterval timer).
Proof.
  cbv zeta. destruct w as [held valid next].
  unfold receivedNotification_, prepare_to_scrobble, set_up_timer.
  rewrite track_length_zero, track_length_short, half_length_ceiling.
  unfold SCROBBLER_HALFWAY_THRESHOLD.
  set (ms := default 0 (UserInfo.Total_Time userinfo)).
  destruct (ms =? 0) eqn:Hzero;
    [apply Z.eqb_eq in Hzero | apply Z.eqb_neq in Hzero];
    (destruct (ms <? 30000) eqn:Hshort;
     [apply Z.ltb_lt in Hshort | apply Z.ltb_ge in Hshort]);
    notification_paths; cbn; intros Hin;
    repeat (destruct Hin as [<- | Hin]; try done);
    cbn; repeat apply conj; try done; try apply Z.le_min_r; try lia.
  all: intros _; split; [done |].
  all: apply Z.min_glb; [apply Z.div_le_lower_bound; lia | lia].
Qed.

Lemma scheduled_timer_bounds_witness :
  15 <= timeInterval {| timer_id := 0; timeInterval := 20;
                        userInfo := example_userinfo |}.
Proof.
  destruct (scheduled_timer_bounds initial example_userinfo
              (example_env None None)
              {| timer_id := 0; timeInterval := 20;
                 userInfo := example_userinfo |})
    as (_ & _ & _ & _ & Hknown); [left; reflexivity |].
  apply Hknown. discriminate.
Defined.

(** ** What the fire handler never does *)

Ltac fire_paths :=
  unfold scrobbleTimerFired_; step_monad; reduce_fields;
  repeat (case_condition; step_monad; reduce_fields).

(** X8: whatever fires, the fire handler leaves the state as it is, sends no
    now-playing update, neither creates nor invalidates a timer, never waits
    and submits at most one scrobble. *)
Theorem fire_handler_is_confined (w : World) (timer : Timer) (env : Env) :
  let fired := scrobbleTimerFired_ timer env w in
  world_of fired = w
  /\ now_playing_updates (effects_of fired) = []
  /\ Forall (fun e => is_timer_effect e = false) (effects_of fired)
  /\ sleeps (effects_of fired) = []
  /\ (length (scrobbles (effects_of fired)) <= 1)%nat.
Proof.
  cbv zeta. destruct w as [held valid next].
  fire_paths; repeat apply conj; try done; cbn; try lia;
    by repeat constructor.
Qed.

(** X9: a fire of a timer that is not valid, or while the player is not
    playing, submits nothing and ends normally, even when the notification
    of the timer has no identifier. *)
Theorem no_scrobble_unless_valid_and_playing
    (w : World) (timer : Timer) (env : Env) :
  valid_timers w !! timer_id timer = None
  \/ playerState env <> ITUNES_PLAYER_STATE_PLAYING ->
  let fired := scrobbleTimerFired_ timer env w in
  outcome fired = Ok tt
  /\ scrobbles (effects_of fired) = []
  /\ Forall (fun e => is_log e = true) (effects_of fired).
Proof.
  intros Hnot. cbv zeta. unfold scrobbleTimerFired_. step_monad.
  destruct (valid_timers w !! timer_id timer) as [valid |] eqn:Hvalid.
  - destruct Hnot as [[=] | Hstate]. apply Z.eqb_neq in Hstate.
    rewrite bool_decide_true, Hstate by done.
    repeat apply conj; try done. by repeat constructor.
  - rewrite bool_decide_false by (by intros [? ?]).
    repeat apply conj; try done. by repeat constructor.
Qed.

Lemma no_scrobble_unless_valid_and_playing_witness :
  scrobbles (effects_of (scrobbleTimerFired_ example_timer
                           (example_env None None) initial)) = [].
Proof.
  by destruct (no_scrobble_unless_valid_and_playing initial example_timer
                 (example_env None None) (or_introl eq_refl))
    as (_ & Hnone & _).
Defined.

(** * Properties of whole runs *)

Lemma run_app (before after : list Event) : forall w : World,
  run (before ++ after) w =
  ((run after (run before w).1).1,
   (run before w).2 ++ (run after (run before w).1).2).
Proof.
  induction before as [| ev before IH]; intros w; cbn [app run fst snd].
  - by destruct (run after w).
  - rewrite IH. cbn [fst snd]. by rewrite app_assoc.
Qed.

(** One event, over the states in which at most the held timer is valid:
    the timers stay identified, the only exception that can leave a handler
    is the one of [int] on a missing duration, and a scrobble uses up a
    timer. *)
Ltac notification_paths_eq :=
  unfold receivedNotification_, update_now_playing, prepare_to_scrobble,
    set_up_timer, cancel_scrobble_timer;
  step_monad; reduce_fields;
  repeat (first
            [ match goal with
              | |- context [match UserInfo.PersistentID ?u with _ => _ end] =>
                  destruct (UserInfo.PersistentID u) eqn:?
              end
            | case_condition ];
          step_monad; reduce_fields).

Ltac accounts_leaf :=
  let Hid := fresh "Hid" in
  intros Hid;
  rewrite ?delete_empty, ?delete_singleton_eq, ?insert_empty;
  repeat apply conj;
  [ unfold identified; cbn [valid_timers]; intros ? ?;
    rewrite ?lookup_empty, ?lookup_singleton_Some;
    first [ done
          | intros [<- <-];
            first [ exact Hid | by eexists | cbn; eexists; eassumption ] ]
  | cbn; by repeat constructor
  | cbn; rewrite ?map_size_empty, ?map_size_singleton; lia ].

Lemma deliver_accounts (w : World) (ev : Event) :
  at_most_held w -> identified w ->
  identified (world_of (deliver ev w))
  /\ Forall (fun what => what =
       "int() argument must be a string, a bytes-like object or a real number, not 'NoneType'"%string)
       (uncaught (effects_of (deliver ev w)))
  /\ (length (scrobbles (effects_of (deliver ev w)))
      + size (valid_timers (world_of (deliver ev w)))
      <= size (valid_timers w)
         + length (scheduled (effects_of (deliver ev w))))%nat.
Proof.
  intros Hinv Hid. destruct w as [held valid next].
  apply at_most_held_cases in Hinv. cbn in Hinv.
  destruct Hinv as [-> | (timer & -> & ->)].
  - clear Hid. assert (Hid : True) by done. revert Hid.
    destruct ev as [userinfo env | id env]; unfold deliver.
    + notification_paths_eq; accounts_leaf.
    + cbn [valid_timers]. rewrite lookup_empty. step_monad. accounts_leaf.
  - specialize (Hid (timer_id timer) timer (lookup_singleton_eq _ _)).
    revert Hid.
    destruct ev as [userinfo env | id env]; unfold deliver.
    + notification_paths_eq; accounts_leaf.
    + cbn [valid_timers].
      destruct (decide (id = timer_id timer)) as [-> | Hother].
      * rewrite lookup_singleton_eq. unfold scrobbleTimerFired_. step_monad.
        cbn [valid_timers]. rewrite lookup_singleton_eq.
        rewrite bool_decide_true by done.
        repeat (case_condition; step_monad; reduce_fields);
          first [ by intros [? [=]] | accounts_leaf ].
      * rewrite lookup_singleton_ne by done. step_monad. accounts_leaf.
Qed.

Lemma run_accounts (events : list Event) : forall w : World,
  at_most_held w -> identified w ->
  identified (run events w).1
  /\ Forall (fun what => what =
       "int() argument must be a string, a bytes-like object or a real number, not 'NoneType'"%string)
       (uncaught (run events w).2)
  /\ (length (scrobbles (run events w).2) + size (valid_timers (run events w).1)
      <= size (valid_timers w) + length (scheduled (run events w).2))%nat.
Proof.
  induction events as [| ev events IH]; intros w Hinv Hid.
  - repeat apply conj; [done | by constructor | cbn; lia].
  - destruct (deliver_accounts w ev Hinv Hid) as (Hid' & Hraise & Hcount).
    destruct (deliver_disciplined w ev Hinv) as (Hinv' & _).
    destruct (IH _ Hinv' Hid') as (Hid'' & Hraise' & Hcount').
    cbn [run fst snd]. unfold uncaught, scrobbles, scheduled in *.
    rewrite !omap_app, !length_app, Forall_app.
    repeat apply conj; [done | done | done | lia].
Qed.

Lemma identified_initial : identified initial.
Proof. intros id timer. cbn. by rewrite lookup_empty. Qed.

(** X10: in every run that starts without a timer, every timer that is
    valid carries a notification with an identifier, so the comparison of
    the fire handler with 0 never fails on a missing identifier. *)
Theorem comparison_never_fails_on_missing_id (events : list Event) :
  identified (run events initial).1
  /\ ~ In "'<' not supported between instances of 'NoneType' and 'int'"%string
          (uncaught (run events initial).2).
Proof.
  destruct (run_accounts events initial (at_most_held_empty None 0)
              identified_initial) as (Hid & Hraise & _).
  split; [done |]. intros Hin.
  rewrite Forall_forall in Hraise.
  apply list_elem_of_In, Hraise in Hin. discriminate Hin.
Qed.

(** X11: in every run that starts without a timer there are at most as many
    scrobbles as timers created, the timers still valid not counted: a
    timer submits at most one scrobble. *)
Theorem at_most_one_scrobble_per_timer (events : list Event) :
  (length (scrobbles (run events initial).2)
   + size (valid_timers (run events initial).1)
   <= length (scheduled (run events initial).2))%nat.
Proof.
  destruct (run_accounts events initial (at_most_held_empty None 0)
              identified_initial) as (_ & _ & Hcount).
  cbn [valid_timers initial] in Hcount. by rewrite map_size_empty in Hcount.
Qed.

Lemma run_at_most_held (events : list Event) :
  at_most_held (run events initial).1.
Proof.
  by destruct (run_disciplined events initial (at_most_held_empty None 0)).
Qed.

Lemma cancelled_no_timer (w : World) :
  at_most_held w ->
  scrobble_timer (cancelled w) = None /\ valid_timers (cancelled w) = ∅.
Proof.
  intros Hinv. destruct w as [held valid next].
  apply at_most_held_cases in Hinv. cbn in Hinv.
  destruct Hinv as [-> | (timer & -> & ->)]; unfold cancelled; cbn.
  - destruct held; cbn; by rewrite ?delete_empty.
  - by rewrite delete_singleton_eq.
Qed.

Lemma deliver_paused_or_stopped (w : World) (userinfo : UserInfo.t) (env : Env) :
  UserInfo.Player_State userinfo = Some "Paused"%string
  \/ UserInfo.Player_State userinfo = Some "Stopped"%string ->
  world_of (deliver (Notification userinfo env) w) = cancelled w.
Proof.
  intros Hstate. destruct w as [held valid next].
  unfold deliver, receivedNotification_, cancelled.
  destruct Hstate as [-> | ->]; decide_state;
    unfold cancel_scrobble_timer; step_monad; reduce_fields;
    by destruct held.
Qed.

(** X12: in every run that starts without a timer, once a [Paused] or
    [Stopped] notification is handled no timer is held and none is valid, so
    whatever timer the run loop is asked to fire next, nothing happens. *)
Theorem paused_or_stopped_prevents_the_scrobble
    (events : list Event) (userinfo : UserInfo.t) (env : Env) :
  UserInfo.Player_State userinfo = Some "Paused"%string
  \/ UserInfo.Player_State userinfo = Some "Stopped"%string ->
  let w := (run (events ++ [Notification userinfo env]) initial).1 in
  scrobble_timer w = None
  /\ valid_timers w = ∅
  /\ (forall id env', deliver (TimerFire id env') w = (Ok tt, w, [])).
Proof.
  intros Hstate. cbv zeta. rewrite run_app. cbn [run fst snd].
  rewrite (deliver_paused_or_stopped _ _ _ Hstate).
  destruct (cancelled_no_timer _ (run_at_most_held events)) as [Hheld Hvalid].
  repeat apply conj; [done | done |].
  intros id env'. apply deliver_fire_not_valid. by rewrite Hvalid, lookup_empty.
Qed.

Lemma paused_or_stopped_prevents_the_scrobble_witness :
  valid_timers
    (run ([Notification example_userinfo (example_env None None)]
          ++ [Notification (notification_of "Paused" None None)
                (example_env None None)]) initial).1 = ∅.
Proof.
  exact (proj1 (proj2 (paused_or_stopped_prevents_the_scrobble
                         [Notification example_userinfo (example_env None None)]
                         (notification_of "Paused" None None)
                         (example_env None None) (or_introl eq_refl)))).
Defined.

(** X13: in every run that starts without a timer, once a [Playing]
    notification with artist and title is handled, a timer that is valid is
    the one held and carries that notification: no timer of an earlier track
    can fire any more. *)
Theorem new_track_replaces_the_timer
    (events : list Event) (userinfo : UserInfo.t) (env : Env) :
  UserInfo.Player_State userinfo = Some "Playing"%string ->
  truthy (UserInfo.Artist userinfo) = true ->
  truthy (UserInfo.Name userinfo) = true ->
  let w := (run (events ++ [Notification userinfo env]) initial).1 in
  forall id timer,
    valid_timers w !! id = Some timer ->
    userInfo timer = userinfo /\ scrobble_timer w = Some timer.
Proof.
  intros Hstate Hartist Htitle. cbv zeta. rewrite run_app. cbn [run fst snd].
  pose proof (run_at_most_held events) as Hinv.
  destruct (run events initial).1 as [held valid next].
  apply at_most_held_cases in Hinv. cbn in Hinv.
  unfold deliver, receivedNotification_, update_now_playing.
  rewrite Hstate. decide_state. step_monad. reduce_fields.
  rewrite Hartist, Htitle.
  destruct Hinv as [-> | (old & -> & ->)];
    unfold prepare_to_scrobble, set_up_timer, cancel_scrobble_timer;
    step_monad; reduce_fields;
    repeat (case_condition; step_monad; reduce_fields);
    rewrite ?delete_empty, ?delete_singleton_eq, ?insert_empty;
    intros id timer; rewrite ?lookup_empty, ?lookup_singleton_Some;
    first [ done | by intros [<- <-] ].
Qed.

Lemma new_track_replaces_the_timer_witness :
  scrobble_timer
    (run (example_events ++
          [Notification example_userinfo (example_env None None)])
       initial).1
  = Some {| timer_id := 2; timeInterval := 20; userInfo := example_userinfo |}.
Proof.
  exact (proj2 (new_track_replaces_the_timer example_events example_userinfo
                  (example_env None None) eq_refl eq_refl eq_refl 2%nat
                  {| timer_id := 2; timeInterval := 20;
                     userInfo := example_userinfo |} eq_refl)).
Defined.

Lemma deliver_first_notification
    (userinfo : UserInfo.t) (env : Env) (pid ms : Z) :
  UserInfo.Player_State userinfo = Some "Playing"%string ->
  truthy (UserInfo.Artist userinfo) = true ->
  truthy (UserInfo.Name userinfo) = true ->
  UserInfo.PersistentID userinfo = Some pid ->
  UserInfo.Total_Time userinfo = Some ms ->
  30000 <= ms ->
  let timer :=
    {| timer_id := 0;
       timeInterval := Z.min (Qceiling (inject_Z ms / 1000 / 2))
                             SCROBBLER_HALFWAY_THRESHOLD;
       userInfo := userinfo |} in
  exists effects,
    deliver (Notification userinfo env) initial =
      (Ok tt,
       {| scrobble_timer := Some timer;
          valid_timers := {[ 0%nat := timer ]};
          next_timer := 1 |},
       effects)
    /\ now_playing_updates effects = [snapshot_kwargs userinfo]
    /\ uncaught effects = []
    /\ scrobbles effects = [].
Proof.
  intros Hstate Hartist Htitle Hid Hms Hlong. cbv zeta.
  assert (Hzero : (ms =? 0) = false) by (apply Z.eqb_neq; lia).
  assert (Hshort : (ms <? 30000) = false) by (apply Z.ltb_ge; lia).
  unfold deliver, receivedNotification_, update_now_playing,
    prepare_to_scrobble, set_up_timer, cancel_scrobble_timer, snapshot_kwargs.
  rewrite Hstate, Hid, Hms. decide_state. cbn [default from_option id].
  rewrite track_length_zero, track_length_short, Hzero, Hshort.
  step_monad. reduce_fields. rewrite Hartist, Htitle.
  step_monad. cbn [initial scrobble_timer valid_timers next_timer].
  rewrite insert_empty. eexists. by repeat apply conj.
Qed.

(** X14: a notification and the fire of its timer, end to end.  For a
    [Playing] notification with artist, title, identifier and a length of at
    least 30 seconds, handled without a timer outstanding, the run loop
    fires timer 0 while the player plays.  If the live track has no id, the
    scrobble repeats the fields of the now-playing update sent for the
    notification and adds the time stamp; if it has the id of another
    track, nothing is submitted. *)
Theorem notification_then_fire
    (userinfo : UserInfo.t) (env env' : Env) (pid ms : Z) :
  UserInfo.Player_State userinfo = Some "Playing"%string ->
  truthy (UserInfo.Artist userinfo) = true ->
  truthy (UserInfo.Name userinfo) = true ->
  UserInfo.PersistentID userinfo = Some pid ->
  UserInfo.Total_Time userinfo = Some ms ->
  30000 <= ms ->
  playerState env' = ITUNES_PLAYER_STATE_PLAYING ->
  let trace :=
    (run [Notification userinfo env; TimerFire 0 env'] initial).2 in
  let sent := snapshot_kwargs userinfo in
  now_playing_updates trace = [sent]
  /\ (Track.persistentID (currentTrack env') = None ->
      uncaught trace = []
      /\ scrobbles trace =
         [ {| artist := artist sent;
              album_artist := album_artist sent;
              title := title sent;
              album := album sent;
              track_number := track_number sent;
              duration := duration sent;
              timestamp :=
                Some (int_of_Q (double_sub (time_time env')
                                           (playerPosition env'))) |} ])
  /\ (forall actual,
        Track.persistentID (currentTrack env') = Some actual ->
        actual <> expected_persistent_id pid ->
        uncaught trace = [] /\ scrobbles trace = []).
Proof.
  intros Hstate Hartist Htitle Hid Hms Hlong Hplaying. cbv zeta.
  destruct (deliver_first_notification userinfo env pid ms Hstate Hartist
              Htitle Hid Hms Hlong) as (first & Hfirst & Hsent & Hraise & Hnone).
  cbn [run fst snd]. unfold world_of, effects_of. rewrite Hfirst.
  cbn [fst snd]. clear Hfirst.
  unfold now_playing_updates, uncaught, scrobbles in *.
  rewrite !omap_app, Hsent, Hraise, Hnone, !app_nil_r. cbn [app].
  unfold deliver. cbn [valid_timers]. rewrite lookup_singleton_eq.
  unfold scrobbleTimerFired_. step_monad.
  cbn [valid_timers timer_id userInfo]. rewrite lookup_singleton_eq.
  rewrite bool_decide_true, Hplaying, Z.eqb_refl, Hid by done.
  unfold snapshot_kwargs. reduce_fields.
  destruct (Track.persistentID (currentTrack env')) as [actual |] eqn:Hactual.
  - destruct (String.eqb actual (expected_persistent_id pid)) eqn:Hsame.
    + apply String.eqb_eq in Hsame.
      destruct (Track.duration (currentTrack env')); cbn;
        (repeat apply conj; [done | done |]);
        intros other [= <-]; congruence.
    + cbn. by repeat apply conj.
  - cbn. by repeat apply conj.
Qed.

Lemma notification_then_fire_witness :
  now_playing_updates
    (run [ Notification example_userinfo (example_env None None);
           TimerFire 0 (example_env None None) ] initial).2
  = [snapshot_kwargs example_userinfo].
Proof.
  exact (proj1 (notification_then_fire example_userinfo
                  (example_env None None) (example_env None None) (-1) 40000
                  eq_refl eq_refl eq_refl eq_refl eq_refl
                  ltac:(lia) eq_refl)).
Defined.

Lemma deliver_without_metadata (w : World) (userinfo : UserInfo.t) (env : Env) :
  UserInfo.Player_State userinfo = Some "Playing"%string ->
  truthy (UserInfo.Artist userinfo) = false
  \/ truthy (UserInfo.Name userinfo) = false ->
  deliver (Notification userinfo env) w =
    (Ok tt, w,
     [ Log DEBUG "Got a notification: {}";
       Log DEBUG "Artist or title are missing, so ignoring...";
       Log DEBUG "update_now_playing returned False, so not going to scrobble." ]).
Proof.
  intros Hstate Hmissing.
  unfold deliver, receivedNotification_, update_now_playing.
  rewrite Hstate. decide_state. step_monad. reduce_fields.
  destruct Hmissing as [-> | ->]; [done |].
  by destruct (truthy (UserInfo.Artist userinfo)).
Qed.

Lemma deliver_fire_without_live_id
    (w : World) (timer : Timer) (env : Env) (pid : Z) :
  valid_timers w !! timer_id timer = Some timer ->
  UserInfo.PersistentID (userInfo timer) = Some pid ->
  playerState env = ITUNES_PLAYER_STATE_PLAYING ->
  Track.persistentID (currentTrack env) = None ->
  scrobbles (effects_of (deliver (TimerFire (timer_id timer) env) w)) =
    [ {| artist := UserInfo.Artist (userInfo timer);
         album_artist := UserInfo.Album_Artist (userInfo timer);
         title := UserInfo.Name (userInfo timer);
         album := UserInfo.Album (userInfo timer);
         track_number := UserInfo.Track_Number (userInfo timer);
         duration :=
           or_None (default 0 (UserInfo.Total_Time (userInfo timer)) / 1000);
         timestamp :=
           Some (int_of_Q (double_sub (time_time env)
                                      (playerPosition env))) |} ].
Proof.
  intros Hvalid Hid Hplaying Hnoid. unfold deliver. rewrite Hvalid.
  unfold scrobbleTimerFired_. step_monad. rewrite Hvalid.
  rewrite bool_decide_true, Hplaying, Z.eqb_refl, Hid, Hnoid by done.
  reflexivity.
Qed.

(** X17: a [Playing] notification without artist or title does not stop the
    timer of the track before it.  After a first notification as in
    [notification_then_fire] and such a second one, the fire of timer 0
    while the player plays a track without id submits the first track, from
    its snapshot. *)
Theorem timer_survives_track_without_metadata
    (userinfo untitled : UserInfo.t) (env env1 env' : Env) (pid ms : Z) :
  UserInfo.Player_State userinfo = Some "Playing"%string ->
  truthy (UserInfo.Artist userinfo) = true ->
  truthy (UserInfo.Name userinfo) = true ->
  UserInfo.PersistentID userinfo = Some pid ->
  UserInfo.Total_Time userinfo = Some ms ->
  30000 <= ms ->
  UserInfo.Player_State untitled = Some "Playing"%string ->
  truthy (UserInfo.Artist untitled) = false
  \/ truthy (UserInfo.Name untitled) = false ->
  playerState env' = ITUNES_PLAYER_STATE_PLAYING ->
  Track.persistentID (currentTrack env') = None ->
  map (fun kwargs => (artist kwargs, title kwargs))
      (scrobbles (run [ Notification userinfo env;
                        Notification untitled env1;
                        TimerFire 0 env' ] initial).2)
  = [ (UserInfo.Artist userinfo, UserInfo.Name userinfo) ].
Proof.
  intros Hstate Hartist Htitle Hid Hms Hlong Hstate' Hmissing Hplaying Hnoid.
  destruct (deliver_first_notification userinfo env pid ms Hstate Hartist
              Htitle Hid Hms Hlong) as (first & Hfirst & _ & _ & Hnone).
  cbn [run fst snd]. unfold world_of at 1 2 3, effects_of at 1 2.
  rewrite Hfirst. cbn [fst snd].
  rewrite (deliver_without_metadata _ untitled env1 Hstate' Hmissing).
  cbn [fst snd]. unfold scrobbles in *. rewrite !omap_app, Hnone, app_nil_r.
  cbn [omap list_omap app].
  match goal with
  | |- context [deliver (TimerFire 0 env') ?w] =>
      pose proof (deliver_fire_without_live_id w
                    {| timer_id := 0;
                       timeInterval :=
                         Z.min (Qceiling (inject_Z ms / 1000 / 2))
                               SCROBBLER_HALFWAY_THRESHOLD;
                       userInfo := userinfo |} env' pid
                    (lookup_singleton_eq _ _) Hid Hplaying Hnoid) as Hfire
  end.
  cbn [timer_id userInfo] in Hfire. unfold scrobbles in Hfire.
  by rewrite Hfire.
Qed.

Lemma timer_survives_track_without_metadata_witness :
  map (fun kwargs => (artist kwargs, title kwargs))
      (scrobbles (run [ Notification example_userinfo (example_env None None);
                        Notification (notification_of "Playing" None None)
                          (example_env None None);
                        TimerFire 0 (example_env None None) ] initial).2)
  = [ (Some "Snapshot Artist"%string, Some "Snapshot Title"%string) ].
Proof.
  exact (timer_survives_track_without_metadata example_userinfo
           (notification_of "Playing" None None)
           (example_env None None) (example_env None None)
           (example_env None None) (-1) 40000
           eq_refl eq_refl eq_refl eq_refl eq_refl ltac:(lia)
           eq_refl (or_introl eq_refl) eq_refl eq_refl).
Defined.

(** * The identifier over the whole signed range *)

Lemma length_hex_digits_aux_le (k : nat) : forall (fuel : nat) (n : Z),
  0 <= n < 16 ^ Z.of_nat (S k) ->
  (length (hex_digits_aux fuel n []) <= S k)%nat.
Proof.
  induction k as [| k IH]; intros [| fuel] n Hn; simpl hex_digits_aux;
    try (simpl; lia).
  - rewrite Z.div_small by (simpl in Hn; lia). simpl. lia.
  - rewrite Nat2Z.inj_succ, Z.pow_succ_r in Hn by lia.
    destruct (n / 16 =? 0); [simpl; lia |].
    rewrite hex_digits_aux_app, length_app. simpl.
    assert (Hq : 0 <= n / 16 < 16 ^ Z.of_nat (S k)).
    { split; [apply Z.div_pos; lia | apply Z.div_lt_upper_bound; lia]. }
    specialize (IH fuel (n / 16) Hq). lia.
Qed.

Lemma hex_value_leading_zeros (k : nat) (ds : list ascii) :
  hex_value (repeat "0"%char k ++ ds) = hex_value ds.
Proof.
  unfold hex_value. rewrite fold_left_app. f_equal.
  induction k as [| k IH]; [done | exact IH].
Qed.

(** Sixteen characters for every unsigned 64-bit number. *)
Lemma format_016X_unsigned (n : Z) :
  0 <= n < 2 ^ 64 ->
  let digits := list_ascii_of_string (format_016X n) in
  length digits = 16%nat
  /\ Forall (fun c => is_upper_hex c = true) digits
  /\ hex_value digits = n.
Proof.
  intros Hn. cbv zeta. unfold format_016X.
  destruct (n <? 0) eqn:Hneg; [apply Z.ltb_lt in Hneg; lia |].
  rewrite list_ascii_of_string_of_list_ascii. unfold zero_fill.
  assert (Hlen : (length (hex_digits n) <= 16)%nat).
  { apply (length_hex_digits_aux_le 15).
    change (16 ^ Z.of_nat 16) with (2 ^ 64). lia. }
  repeat apply conj.
  - rewrite length_app, repeat_length. lia.
  - apply Forall_app. split.
    + apply Forall_forall. intros c Hc.
      apply list_elem_of_In, repeat_spec in Hc. by subst.
    + by apply Forall_upper_hex_digits_aux.
  - rewrite hex_value_leading_zeros. apply hex_value_hex_digits. lia.
Qed.

Lemma unsigned_persistent_id_mod (v : Z) :
  - 2 ^ 63 <= v < 2 ^ 63 ->
  0 <= unsigned_persistent_id v < 2 ^ 64
  /\ unsigned_persistent_id v = v mod 2 ^ 64.
Proof.
  intros Hv. unfold unsigned_persistent_id.
  destruct (v <? 0) eqn:Hneg;
    [apply Z.ltb_lt in Hneg | apply Z.ltb_ge in Hneg].
  - split; [lia |]. apply (Z.mod_unique _ _ (-1)); lia.
  - split; [lia |]. symmetry. apply Z.mod_small. lia.
Qed.

Lemma length_list_ascii_of_string (s : string) :
  length (list_ascii_of_string s) = String.length s.
Proof. induction s as [| c s IH]; simpl; congruence. Qed.

(** X15: for every signed 64-bit identifier of a notification, the
    identifier the fire handler expects has exactly sixteen upper-case
    hexadecimal digits, and they denote the identifier modulo 2^64. *)
Theorem expected_persistent_id_denotes (v : Z) :
  - 2 ^ 63 <= v < 2 ^ 63 ->
  let digits := list_ascii_of_string (expected_persistent_id v) in
  String.length (expected_persistent_id v) = 16%nat
  /\ Forall (fun c => is_upper_hex c = true) digits
  /\ hex_value digits = v mod 2 ^ 64.
Proof.
  intros Hv. cbv zeta.
  destruct (unsigned_persistent_id_mod v Hv) as [Hrange Hmod].
  destruct (format_016X_unsigned _ Hrange) as (Hlen & Hhex & Hval).
  unfold expected_persistent_id. rewrite <- Hmod.
  repeat apply conj; [| done | done].
  by rewrite <- length_list_ascii_of_string.
Qed.

Lemma expected_persistent_id_denotes_witness :
  hex_value (list_ascii_of_string (expected_persistent_id 42)) = 42 mod 2 ^ 64.
Proof.
  refine (proj2 (proj2 (expected_persistent_id_denotes 42 _))).
  vm_compute. split; congruence.
Defined.

(** X16: two notifications whose signed 64-bit identifiers differ are
    expected under different identifiers: the comparison of the fire handler
    never takes one track for another. *)
Theorem expected_persistent_id_injective (v1 v2 : Z) :
  - 2 ^ 63 <= v1 < 2 ^ 63 ->
  - 2 ^ 63 <= v2 < 2 ^ 63 ->
  expected_persistent_id v1 = expected_persistent_id v2 ->
  v1 = v2.
Proof.
  intros Hv1 Hv2 Hsame.
  destruct (unsigned_persistent_id_mod v1 Hv1) as [Hrange1 _].
  destruct (unsigned_persistent_id_mod v2 Hv2) as [Hrange2 _].
  destruct (format_016X_unsigned _ Hrange1) as (_ & _ & Hval1).
  destruct (format_016X_unsigned _ Hrange2) as (_ & _ & Hval2).
  unfold expected_persistent_id in Hsame. rewrite Hsame, Hval2 in Hval1.
  unfold unsigned_persistent_id in Hval1.
  destruct (v1 <? 0) eqn:Hn1; destruct (v2 <? 0) eqn:Hn2;
    rewrite ?Z.ltb_lt, ?Z.ltb_ge in *; lia.
Qed.

Lemma expected_persistent_id_injective_witness :
  expected_persistent_id (-1) <> expected_persistent_id 42.
Proof.
  intros Hsame.
  apply expected_persistent_id_injective in Hsame;
    [discriminate Hsame | vm_compute; split; congruence ..].
Defined.
